(** * ViharaYatra server: authentication and group messaging

    A shallow embedding of [server/index.js]: the access-control middleware
    [authenticateUser] and the six REST handlers, over an in-memory model of
    the two MongoDB collections ([users], [groups]), of the socket.io
    emissions and, for the two authentication handlers, of the server
    console.

    What the handlers call and the repository does not define is kept
    behind interfaces:
    - [String.prototype.toLowerCase] is an operation of the JavaScript
      runtime ([JsString], [JsStringLaws]);
    - bcryptjs is an interface ([Bcrypt]) with its contract ([BcryptLaws]);
    - jsonwebtoken's [sign] and [verify] are written out over an interface
      ([JwtCodec], [JwtCodecLaws]) for the token's string form and its MAC;
    - mongoose's cast of a string to an ObjectId is an operation
      ([ObjectIdCast]); its [findOne], [findById], [find], [save] and the
      schema validators are functions on lists of documents.
    Exceptions are values of [Exn]; [try { ... } catch] is [try_catch]. *)

From Stdlib Require Import Ascii ZArith Lia.
From stdpp Require Import base option list strings countable.

Local Open Scope Z_scope.
Set Warnings "-register-all".
#[local] Arguments String.append !_ _ / : simpl nomatch.

(** ** JavaScript strings *)

(** A string is its sequence of bytes in UTF-8.  [toLowerCase s] is
    [s.toLowerCase()]: the runtime lowers every cased letter, of any
    script. *)
Class JsString := {
  toLowerCase : string -> string
}.

(** What the handlers rely on: lowering a lowered string changes nothing,
    and the empty string, and no other, is lowered to the empty string. *)
Class JsStringLaws `{JsString} : Prop := {
  toLowerCase_idemp : forall s, toLowerCase (toLowerCase s) = toLowerCase s;
  toLowerCase_empty : toLowerCase "" = "";
  toLowerCase_nonempty : forall s, s <> "" -> toLowerCase s <> ""
}.

(** [s.split(sep)] for a one-character separator: a string with k
    separators yields k+1 pieces, the empty string yields [[""]]. *)
Fixpoint split (sep : ascii) (s : string) : list string :=
  match s with
  | EmptyString => [EmptyString]
  | String c r =>
      if Ascii.eqb c sep then EmptyString :: split sep r
      else match split sep r with
           | [] => [String c EmptyString]
           | w :: ws => String c w :: ws
           end
  end.

Fixpoint has_char (c : ascii) (s : string) : bool :=
  match s with
  | EmptyString => false
  | String d r => Ascii.eqb d c || has_char c r
  end.

(** ** JSON response bodies *)

Definition ObjectId := N.

(** mongoose's cast of a string to an ObjectId, as [findById] applies it
    to its argument: [None] when the string is not the string form of an
    ObjectId (the query then throws a CastError). *)
Class ObjectIdCast := {
  castObjectId : string -> option ObjectId
}.

Inductive Json :=
| JStr (s : string)
| JOid (o : ObjectId)
| JDate (ms : Z)
| JArr (l : list Json)
| JObj (fields : list (string * Json)).

(** A property whose value is [undefined] is left out by [JSON.stringify]. *)
Definition opt_field (k : string) (v : option string) : list (string * Json) :=
  match v with
  | None => []
  | Some s => [(k, JStr s)]
  end.

Fixpoint assoc (k : string) (fields : list (string * Json)) : option Json :=
  match fields with
  | [] => None
  | (k', v) :: r => if String.eqb k' k then Some v else assoc k r
  end.

Definition json_get (k : string) (j : Json) : option Json :=
  match j with
  | JObj fields => assoc k fields
  | _ => None
  end.

Record Response := { status : nat; body : Json }.

Definition json_error (code : nat) (msg : string) : Response :=
  {| status := code; body := JObj [("error", JStr msg)] |}.

(** ** Exceptions *)

Inductive Exn :=
| TypeError
| ValidationError
| DuplicateKeyError
| BcryptIllegalArguments
| JwtSecretMissing
| CastError.

(** ** bcryptjs *)

(** [bcrypt_hash pw rounds salt] is [bcrypt.hash(pw, rounds)] when the
    library draws [salt]; [bcrypt_compare pw digest] is [bcrypt.compare]. *)
Class Bcrypt := {
  bcrypt_hash : string -> nat -> string -> string;
  bcrypt_compare : string -> string -> bool
}.

(** The library's contract: [compare] accepts the password that was
    hashed, and a digest is neither empty nor the password itself.  Which
    other passwords [compare] accepts is not part of it: bcrypt reads the
    first 72 bytes of a password only. *)
Class BcryptLaws `{Bcrypt} : Prop := {
  bcrypt_compare_hash : forall pw rounds salt,
    bcrypt_compare pw (bcrypt_hash pw rounds salt) = true;
  bcrypt_hash_nonempty : forall pw rounds salt,
    bcrypt_hash pw rounds salt <> "";
  bcrypt_hash_not_plain : forall pw rounds salt,
    bcrypt_hash pw rounds salt <> pw
}.

(** ** jsonwebtoken *)

Module Jwt.
(** The decoded payload: the claims of [jwt.sign] at login plus the
    [iat] and [exp] NumericDates (seconds) the library adds. *)
Record payload := {
  userId : ObjectId;
  email : string;
  iat : Z;
  exp : Z
}.

Record t := { claims : payload; signature : string }.

Inductive error :=
| Malformed
| SecretMissing
| InvalidSignature
| TokenExpired.
End Jwt.

(** The compact string form of a token and the MAC over its payload. *)
Class JwtCodec := {
  jwt_mac : string -> Jwt.payload -> string;
  jwt_encode : Jwt.t -> string;
  jwt_decode : string -> option Jwt.t
}.

(** A token's string decodes to the token; it is not empty and has no
    space (base64url and dots). *)
Class JwtCodecLaws `{JwtCodec} : Prop := {
  jwt_decode_encode : forall t, jwt_decode (jwt_encode t) = Some t;
  jwt_encode_no_space : forall t, has_char " "%char (jwt_encode t) = false;
  jwt_encode_nonempty : forall t, jwt_encode t <> ""
}.

(** The library's clock: [Math.floor(Date.now() / 1000)]. *)
Definition numeric_date (now_ms : Z) : Z := now_ms / 1000.

(** [expiresIn: "1h"] as a span of seconds. *)
Definition expiresIn_1h : Z := 60 * 60.

Section Jsonwebtoken.
Context {jc : JwtCodec}.

(** [jwt.sign({userId, email}, secret, {expiresIn})] at [Date.now() = now]. *)
Definition jwt_sign (uid : ObjectId) (mail : string) (secret : option string)
    (expiresIn : Z) (now : Z) : Exn + string :=
  match secret with
  | Some key =>
      if String.eqb key "" then inl JwtSecretMissing
      else
        let t := numeric_date now in
        let p := {| Jwt.userId := uid; Jwt.email := mail;
                    Jwt.iat := t; Jwt.exp := t + expiresIn |} in
        inr (jwt_encode {| Jwt.claims := p; Jwt.signature := jwt_mac key p |})
  | None => inl JwtSecretMissing
  end.

(** [jwt.verify(token, secret, callback)] at [Date.now() = now]:
    [inl] is the callback's [err], [inr] its [decoded]. *)
Definition jwt_verify (token : string) (secret : option string) (now : Z)
    : Jwt.error + Jwt.payload :=
  match jwt_decode token with
  | None => inl Jwt.Malformed
  | Some t =>
      match secret with
      | Some key =>
          if String.eqb key "" then inl Jwt.SecretMissing
          else if negb (String.eqb (Jwt.signature t) (jwt_mac key (Jwt.claims t)))
          then inl Jwt.InvalidSignature
          else if Jwt.exp (Jwt.claims t) <=? numeric_date now
          then inl Jwt.TokenExpired
          else inr (Jwt.claims t)
      | None => inl Jwt.SecretMissing
      end
  end.
End Jsonwebtoken.

(** ** Process environment *)

Record Env := { JWT_SECRET : option string }.

(** ** The access-control middleware *)

Inductive Authenticated :=
| Rejected (r : Response)
| Next (user : Jwt.payload).

Section Middleware.
Context {jc : JwtCodec}.

(** [req.headers.authorization?.split(" ")[1]] *)
Definition bearer_token (authorization : option string) : option string :=
  h ← authorization; split " "%char h !! 1%nat.

Definition reject_401 : Authenticated :=
  Rejected (json_error 401 "Unauthorized. No token provided.").

Definition reject_403 : Authenticated :=
  Rejected (json_error 403 "Invalid or expired token").

Definition authenticateUser (env : Env) (now : Z)
    (authorization : option string) : Authenticated :=
  match bearer_token authorization with
  | Some token =>
      if String.eqb token "" then reject_401
      else
        match jwt_verify token (JWT_SECRET env) now with
        | inl _ => reject_403
        | inr decoded => Next decoded
        end
  | None => reject_401
  end.

(** The middleware's two last steps, for a header whose second field is
    [tok]. *)
Definition on_token (env : Env) (now : Z) (tok : string) : Authenticated :=
  if String.eqb tok "" then reject_401
  else match jwt_verify tok (JWT_SECRET env) now with
       | inl _ => reject_403
       | inr decoded => Next decoded
       end.
End Middleware.

(** Following the words of the specification: a request carries no token
    when the header is absent or is not of the bearer scheme
    [Bearer <token>]. *)
Definition spec_no_token (authorization : option string) : bool :=
  match authorization with
  | Some h => negb (String.prefix "Bearer " h)
  | None => true
  end.

(** ** Documents and collections *)

Module User.
(** [UserSchema]; a document built from a request may lack [name]. *)
Record t := {
  _id : ObjectId;
  name : option string;
  email : string;
  password : string
}.
End User.

Module Message.
Record t := { sender : string; text : option string; timestamp : Z }.
End Message.

Module Group.
(** [GroupSchema]; [members] holds user emails. *)
Record t := {
  _id : ObjectId;
  name : option string;
  members : list string;
  messages : list Message.t
}.
End Group.

(** One [io.to(room).emit(event, data)]; a room is named by the group's
    [_id.toString()]. *)
Record Emit := { room : ObjectId; event : string; data : Message.t }.

Record World := {
  users : list User.t;
  groups : list Group.t;
  emitted : list Emit;
  next_oid : ObjectId
}.

(** ** Handlers as state-and-exception computations *)

Definition M (A : Type) : Type := World -> (Exn + A) * World.

#[local] Instance M_ret : MRet M := fun A a w => (inr a, w).
#[local] Instance M_bind : MBind M := fun A B f m w =>
  match m w with
  | (inr a, w') => f a w'
  | (inl e, w') => (inl e, w')
  end.

Definition throw {A} (e : Exn) : M A := fun w => (inl e, w).

(** [try { body } catch (error) { handler }]: what [body] wrote before it
    threw stays written. *)
Definition try_catch {A} (body : M A) (handler : Exn -> M A) : M A := fun w =>
  match body w with
  | (inr a, w') => (inr a, w')
  | (inl e, w') => handler e w'
  end.

Definition lift {A} (r : Exn + A) : M A := fun w => (r, w).

Definition get_world : M World := fun w => (inr w, w).
Definition put_world (w : World) : M unit := fun _ => (inr tt, w).

(** [new mongoose.Types.ObjectId()] *)
Definition new_ObjectId : M ObjectId := fun w =>
  (inr (next_oid w),
   {| users := users w; groups := groups w; emitted := emitted w;
      next_oid := N.succ (next_oid w) |}).

(** *** mongoose queries *)

(** The filters [{ email }], [{ _id }] of [findOne] and [findById]. *)
Definition by_email (mail : string) (u : User.t) : bool :=
  String.eqb (User.email u) mail.

Definition by_user_id (id : ObjectId) (u : User.t) : bool :=
  N.eqb (User._id u) id.

Definition by_group_id (id : ObjectId) (g : Group.t) : bool :=
  N.eqb (Group._id g) id.

Definition User_findOne_email (mail : string) : M (option User.t) :=
  w ← get_world;
  mret (List.find (by_email mail) (users w)).

Definition User_findById (id : ObjectId) : M (option User.t) :=
  w ← get_world;
  mret (List.find (by_user_id id) (users w)).

(** [required: true] on a String path: present and not empty. *)
Definition required (v : option string) : bool :=
  match v with
  | Some s => negb (String.eqb s "")
  | None => false
  end.

Definition User_validate (u : User.t) : bool :=
  required (User.name u) && required (Some (User.email u))
  && required (Some (User.password u)).

(** [newUser.save()]: schema validation, then the insert under the unique
    index on [email]. *)
Definition User_save (u : User.t) : M unit :=
  w ← get_world;
  if negb (User_validate u) then throw ValidationError
  else if existsb (by_email (User.email u)) (users w)
  then throw DuplicateKeyError
  else put_world {| users := users w ++ [u]; groups := groups w;
                    emitted := emitted w; next_oid := next_oid w |}.

(** [Group.findById(id)] for a string [id]: the cast comes first. *)
Definition Group_findById `{ObjectIdCast} (id : string) : M (option Group.t) :=
  match castObjectId id with
  | Some oid =>
      w ← get_world;
      mret (List.find (by_group_id oid) (groups w))
  | None => throw CastError
  end.

(** [Group.find({ members: email })]: the documents whose [members] array
    contains [email], in collection order. *)
Definition Group_find_member (mail : string) : M (list Group.t) :=
  w ← get_world;
  mret (filter (fun g => mail ∈ Group.members g) (groups w)).

(** [group.save()] of a new document. *)
Definition Group_insert (g : Group.t) : M unit :=
  w ← get_world;
  put_world {| users := users w; groups := groups w ++ [g];
               emitted := emitted w; next_oid := next_oid w |}.

Fixpoint replace_by_id (g' : Group.t) (gs : list Group.t) : list Group.t :=
  match gs with
  | [] => []
  | g :: r =>
      if N.eqb (Group._id g) (Group._id g') then g' :: r
      else g :: replace_by_id g' r
  end.

(** [group.save()] of a loaded document: the stored document with that
    [_id] is replaced. *)
Definition Group_update (g : Group.t) : M unit :=
  w ← get_world;
  put_world {| users := users w; groups := replace_by_id g (groups w);
               emitted := emitted w; next_oid := next_oid w |}.

(** [io.to(room).emit(event, data)] *)
Definition io_emit (r : ObjectId) (ev : string) (m : Message.t) : M unit :=
  w ← get_world;
  put_world {| users := users w; groups := groups w;
               emitted := emitted w ++ [{| room := r; event := ev; data := m |}];
               next_oid := next_oid w |}.

(** *** Documents as JSON *)

Definition user_fields (u : User.t) : list (string * Json) :=
  [("_id", JOid (User._id u))] ++ opt_field "name" (User.name u)
  ++ [("email", JStr (User.email u)); ("password", JStr (User.password u))].

(** [.select("-password")]-style projection: the named field is dropped. *)
Definition select_without (k : string) (fields : list (string * Json))
    : list (string * Json) :=
  List.filter (fun kv => negb (String.eqb (fst kv) k)) fields.

Definition message_json (m : Message.t) : Json :=
  JObj ([("sender", JStr (Message.sender m))] ++ opt_field "text" (Message.text m)
        ++ [("timestamp", JDate (Message.timestamp m))]).

Definition group_json (g : Group.t) : Json :=
  JObj ([("_id", JOid (Group._id g))] ++ opt_field "name" (Group.name g)
        ++ [("members", JArr (map JStr (Group.members g)));
            ("messages", JArr (map message_json (Group.messages g)))]).

(** ** Requests *)

Module Body.
(** [req.body]: each field is [undefined] or a string. *)
Record t := {
  name : option string;
  email : option string;
  password : option string;
  text : option string
}.
End Body.

Module Req.
(** [id] is [req.params.id]: the path segment as the client wrote it. *)
Record t := {
  authorization : option string;
  body : Body.t;
  id : string
}.
End Req.

(** ** The routes *)

Section Routes.
Context {str : JsString} {bc : Bcrypt} {jc : JwtCodec} {oc : ObjectIdCast}.

(** [s.toLowerCase()] where [s] may be [undefined]. *)
Definition js_toLowerCase (s : option string) : M string :=
  match s with
  | Some s => mret (toLowerCase s)
  | None => throw TypeError
  end.

(** [bcrypt.hash(password, rounds)]; a password that is not a string is
    an illegal argument. *)
Definition js_bcrypt_hash (pw : option string) (rounds : nat) (salt : string)
    : M string :=
  match pw with
  | Some pw => mret (bcrypt_hash pw rounds salt)
  | None => throw BcryptIllegalArguments
  end.

Definition js_bcrypt_compare (pw : option string) (digest : string) : M bool :=
  match pw with
  | Some pw => mret (bcrypt_compare pw digest)
  | None => throw BcryptIllegalArguments
  end.

(** A route registered as [app.METHOD(path, authenticateUser, handler)]. *)
Definition protected (env : Env) (now : Z) (req : Req.t)
    (handler : Jwt.payload -> M Response) : M Response :=
  match authenticateUser env now (Req.authorization req) with
  | Rejected r => mret r
  | Next user => handler user
  end.

(** [POST /api/auth/register], its store and its answer; [salt] is the
    salt bcrypt draws.  What the handler writes to the console is in
    [post_auth_register_logged] below. *)
Definition post_auth_register (salt : string) (req : Req.t) : M Response :=
  try_catch
    (mail ← js_toLowerCase (Body.email (Req.body req));
     existingUser ← User_findOne_email mail;
     match existingUser with
     | Some _ => mret (json_error 400 "Email already in use")
     | None =>
         hashedPassword ← js_bcrypt_hash (Body.password (Req.body req)) 10 salt;
         oid ← new_ObjectId;
         User_save {| User._id := oid; User.name := Body.name (Req.body req);
                      User.email := mail; User.password := hashedPassword |};;
         mret {| status := 201;
                 body := JObj [("message", JStr "User registered successfully!")] |}
     end)
    (fun _ => mret (json_error 500 "Error registering user")).

(** [POST /api/auth/login], its store and its answer; the lowercasing
    sits before the [try].  What the handler writes to the console is in
    [post_auth_login_logged] below. *)
Definition post_auth_login (env : Env) (now : Z) (req : Req.t) : M Response :=
  mail ← js_toLowerCase (Body.email (Req.body req));
  try_catch
    (user ← User_findOne_email mail;
     match user with
     | None => mret (json_error 400 "User not found")
     | Some user =>
         isMatch ← js_bcrypt_compare (Body.password (Req.body req))
                                     (User.password user);
         if negb isMatch then mret (json_error 400 "Invalid password")
         else
           token ← lift (jwt_sign (User._id user) (User.email user)
                                  (JWT_SECRET env) expiresIn_1h now);
           mret {| status := 200;
                   body := JObj [("message", JStr "Login successful");
                                 ("token", JStr token)] |}
     end)
    (fun _ => mret (json_error 500 "Server error during login")).

(** [GET /api/auth/user] *)
Definition get_auth_user (env : Env) (now : Z) (req : Req.t) : M Response :=
  protected env now req (fun user =>
    try_catch
      (found ← User_findById (Jwt.userId user);
       match found with
       | None => mret (json_error 404 "User not found")
       | Some u =>
           mret {| status := 200;
                   body := JObj (select_without "password" (user_fields u)) |}
       end)
      (fun _ => mret (json_error 500 "Server error"))).

(** [POST /api/groups] *)
Definition post_groups (env : Env) (now : Z) (req : Req.t) : M Response :=
  protected env now req (fun user =>
    try_catch
      (oid ← new_ObjectId;
       let group := {| Group._id := oid; Group.name := Body.name (Req.body req);
                       Group.members := [Jwt.email user];
                       Group.messages := [] |} in
       Group_insert group;;
       mret {| status := 201;
               body := JObj [("message", JStr "Group created successfully!");
                             ("group", group_json group)] |})
      (fun _ => mret (json_error 500 "Error creating group"))).

(** [GET /api/groups] *)
Definition get_groups (env : Env) (now : Z) (req : Req.t) : M Response :=
  protected env now req (fun user =>
    try_catch
      (found ← Group_find_member (Jwt.email user);
       mret {| status := 200; body := JArr (map group_json found) |})
      (fun _ => mret (json_error 500 "Error fetching groups"))).

(** [POST /api/groups/:id/message]; [now] is also the [new Date()]. *)
Definition post_groups_message (env : Env) (now : Z) (req : Req.t)
    : M Response :=
  protected env now req (fun user =>
    try_catch
      (found ← Group_findById (Req.id req);
       match found with
       | None => mret (json_error 404 "Group not found")
       | Some group =>
           let message := {| Message.sender := Jwt.email user;
                             Message.text := Body.text (Req.body req);
                             Message.timestamp := now |} in
           Group_update {| Group._id := Group._id group;
                           Group.name := Group.name group;
                           Group.members := Group.members group;
                           Group.messages := Group.messages group ++ [message] |};;
           io_emit (Group._id group) "newMessage" message;;
           mret {| status := 200;
                   body := JObj [("message", JStr "Message sent!");
                                 ("data", message_json message)] |}
       end)
      (fun _ => mret (json_error 500 "Error sending message"))).
End Routes.

(** ** The server console *)

(** What [console.log(label, value)] or [console.error(label, value)]
    prints after its label: a value, or a caught error. *)
Inductive Printed :=
| PJson (j : Json)
| PError (e : Exn).

Record LogLine := { label : string; printed : Printed }.

(** A handler together with the console: the lines written so far are
    part of the state, oldest first. *)
Definition L (A : Type) : Type :=
  World * list LogLine -> (Exn + A) * (World * list LogLine).

#[local] Instance L_ret : MRet L := fun A a st => (inr a, st).
#[local] Instance L_bind : MBind L := fun A B f m st =>
  match m st with
  | (inr a, st') => f a st'
  | (inl e, st') => (inl e, st')
  end.

Definition try_catch_L {A} (body : L A) (handler : Exn -> L A) : L A := fun st =>
  match body st with
  | (inr a, st') => (inr a, st')
  | (inl e, st') => handler e st'
  end.

(** A step that writes nothing to the console. *)
Definition quiet {A} (m : M A) : L A := fun st =>
  match m (fst st) with
  | (r, w') => (r, (w', snd st))
  end.

Definition console_log (l : string) (v : Printed) : L unit := fun st =>
  (inr tt, (fst st, snd st ++ [{| label := l; printed := v |}])).

(** [req.body] as the console prints it (fields in the order [name],
    [email], [password], [text]). *)
Definition body_json (b : Body.t) : Json :=
  JObj (opt_field "name" (Body.name b) ++ opt_field "email" (Body.email b)
        ++ opt_field "password" (Body.password b)
        ++ opt_field "text" (Body.text b)).

Section Console.
Context {str : JsString} {bc : Bcrypt} {jc : JwtCodec}.

(** [POST /api/auth/register] with its four console statements. *)
Definition post_auth_register_logged (salt : string) (req : Req.t)
    : L Response :=
  try_catch_L
    (mail ← quiet (js_toLowerCase (Body.email (Req.body req)));
     console_log "📩 Registration Request Received:"
                 (PJson (body_json (Req.body req)));;
     existingUser ← quiet (User_findOne_email mail);
     match existingUser with
     | Some _ =>
         console_log "❌ Email already exists:" (PJson (JStr mail));;
         mret (json_error 400 "Email already in use")
     | None =>
         hashedPassword ← quiet (js_bcrypt_hash (Body.password (Req.body req))
                                                10 salt);
         oid ← quiet new_ObjectId;
         let newUser := {| User._id := oid;
                           User.name := Body.name (Req.body req);
                           User.email := mail;
                           User.password := hashedPassword |} in
         quiet (User_save newUser);;
         console_log "✅ User successfully saved to database:"
                     (PJson (JObj (user_fields newUser)));;
         mret {| status := 201;
                 body := JObj [("message", JStr "User registered successfully!")] |}
     end)
    (fun error =>
       console_log "❌ Registration Error:" (PError error);;
       mret (json_error 500 "Error registering user")).

(** [POST /api/auth/login] with its five console statements. *)
Definition post_auth_login_logged (env : Env) (now : Z) (req : Req.t)
    : L Response :=
  mail ← quiet (js_toLowerCase (Body.email (Req.body req)));
  try_catch_L
    (console_log "🔍 Login Request for:" (PJson (JStr mail));;
     user ← quiet (User_findOne_email mail);
     match user with
     | None =>
         console_log "❌ User not found:" (PJson (JStr mail));;
         mret (json_error 400 "User not found")
     | Some user =>
         isMatch ← quiet (js_bcrypt_compare (Body.password (Req.body req))
                                            (User.password user));
         if negb isMatch then
           console_log "❌ Invalid password for:" (PJson (JStr mail));;
           mret (json_error 400 "Invalid password")
         else
           console_log "✅ Login Successful:" (PJson (JStr mail));;
           token ← quiet (lift (jwt_sign (User._id user) (User.email user)
                                         (JWT_SECRET env) expiresIn_1h now));
           mret {| status := 200;
                   body := JObj [("message", JStr "Login successful");
                                 ("token", JStr token)] |}
     end)
    (fun error =>
       console_log "❌ Login Error:" (PError error);;
       mret (json_error 500 "Server error during login")).
End Console.

(** ** The server over a sequence of requests *)

Inductive Route :=
| PostAuthRegister (salt : string)
| PostAuthLogin
| GetAuthUser
| PostGroups
| GetGroups
| PostGroupsMessage.

(** One request: the route it matched, [Date.now()] while it is handled,
    and the request itself. *)
Record Call := { route : Route; now_ms : Z; request : Req.t }.

Section Server.
Context {str : JsString} {bc : Bcrypt} {jc : JwtCodec} {oc : ObjectIdCast}.

Definition serve (env : Env) (c : Call) : M Response :=
  match route c with
  | PostAuthRegister salt => post_auth_register salt (request c)
  | PostAuthLogin => post_auth_login env (now_ms c) (request c)
  | GetAuthUser => get_auth_user env (now_ms c) (request c)
  | PostGroups => post_groups env (now_ms c) (request c)
  | GetGroups => get_groups env (now_ms c) (request c)
  | PostGroupsMessage => post_groups_message env (now_ms c) (request c)
  end.

(** The store after the requests [calls], handled one after the other. *)
Fixpoint run (env : Env) (calls : list Call) (w : World) : World :=
  match calls with
  | [] => w
  | c :: rest => run env rest (snd (serve env c w))
  end.
End Server.

(** ** The answers and records the properties speak of *)

Section Answers.
Context {str : JsString} {bc : Bcrypt} {jc : JwtCodec}.

Definition registered_201 : Response :=
  {| status := 201;
     body := JObj [("message", JStr "User registered successfully!")] |}.

(** The record a successful registration inserts. *)
Definition new_user (w : World) (nm : option string) (E P salt : string)
    : User.t :=
  {| User._id := next_oid w; User.name := nm;
     User.email := toLowerCase E; User.password := bcrypt_hash P 10 salt |}.

(** The payload and the token that a login of [u] at [Date.now() = now]
    signs with [key]. *)
Definition login_claims (u : User.t) (now : Z) : Jwt.payload :=
  {| Jwt.userId := User._id u; Jwt.email := User.email u;
     Jwt.iat := numeric_date now;
     Jwt.exp := numeric_date now + expiresIn_1h |}.

Definition login_token (key : string) (u : User.t) (now : Z) : string :=
  jwt_encode {| Jwt.claims := login_claims u now;
                Jwt.signature := jwt_mac key (login_claims u now) |}.

Definition login_200 (tok : string) : Response :=
  {| status := 200;
     body := JObj [("message", JStr "Login successful");
                   ("token", JStr tok)] |}.

Definition append_message (g : Group.t) (m : Message.t) : Group.t :=
  {| Group._id := Group._id g; Group.name := Group.name g;
     Group.members := Group.members g;
     Group.messages := Group.messages g ++ [m] |}.

(** The message a caller with claims [user] sends at [now]. *)
Definition new_message (user : Jwt.payload) (req : Req.t) (now : Z)
    : Message.t :=
  {| Message.sender := Jwt.email user;
     Message.text := Body.text (Req.body req);
     Message.timestamp := now |}.

Definition message_sent_200 (m : Message.t) : Response :=
  {| status := 200;
     body := JObj [("message", JStr "Message sent!"); ("data", message_json m)] |}.

Definition group_created_201 (g : Group.t) : Response :=
  {| status := 201;
     body := JObj [("message", JStr "Group created successfully!");
                   ("group", group_json g)] |}.

(** The user document as [GET /api/auth/user] sends it. *)
Definition user_200 (u : User.t) : Response :=
  {| status := 200;
     body := JObj ([("_id", JOid (User._id u))] ++ opt_field "name" (User.name u)
                   ++ [("email", JStr (User.email u))]) |}.
End Answers.

(** ** What one request can do to the store *)

Section Effects.
Context {str : JsString} {bc : Bcrypt}.

(** The five ways a handler leaves the store: as it was; with one ObjectId
    drawn and nothing saved; with one validated user of a free email added;
    with one group added; with one message appended to a stored group and
    emitted to its room. *)
Inductive Change (w : World) : World -> Prop :=
| change_none : Change w w
| change_oid :
    Change w {| users := users w; groups := groups w; emitted := emitted w;
                next_oid := N.succ (next_oid w) |}
| change_user nm E P salt :
    List.find (by_email (toLowerCase E)) (users w) = None ->
    User_validate (new_user w nm E P salt) = true ->
    Change w {| users := users w ++ [new_user w nm E P salt];
                groups := groups w; emitted := emitted w;
                next_oid := N.succ (next_oid w) |}
| change_group nm mail :
    Change w {| users := users w;
                groups := groups w ++ [{| Group._id := next_oid w;
                                          Group.name := nm;
                                          Group.members := [mail];
                                          Group.messages := [] |}];
                emitted := emitted w; next_oid := N.succ (next_oid w) |}
| change_message group m :
    List.find (by_group_id (Group._id group)) (groups w) = Some group ->
    Change w {| users := users w;
                groups := replace_by_id (append_message group m) (groups w);
                emitted := emitted w ++ [{| room := Group._id group;
                                            event := "newMessage"; data := m |}];
                next_oid := next_oid w |}.
End Effects.

(** *** Conditions on a store *)

Section StoredUsers.
Context {str : JsString}.

(** A user record as [POST /api/auth/register] saves it: a lowercase email
    and the three required fields. *)
Definition user_ok (u : User.t) : Prop :=
  toLowerCase (User.email u) = User.email u /\ User_validate u = true.

Definition users_ok (w : World) : Prop :=
  Forall user_ok (users w) /\ NoDup (map User.email (users w)).
End StoredUsers.

(** Every stored [_id] was drawn before: it is below the next ObjectId, and
    no two documents of a collection share one. *)
Definition ids_fresh (w : World) : Prop :=
  Forall (fun u => (User._id u < next_oid w)%N) (users w) /\
  NoDup (map User._id (users w)) /\
  Forall (fun g => (Group._id g < next_oid w)%N) (groups w) /\
  NoDup (map Group._id (groups w)).

(** An emission whose message is stored in the group that names its room. *)
Definition emit_stored (w : World) (e : Emit) : Prop :=
  event e = "newMessage" /\
  exists g, g ∈ groups w /\ Group._id g = room e /\
            data e ∈ Group.messages g.

(** [g'] is [g] after more messages: same id, name and members, and the
    messages of [g] first. *)
Definition group_grows (g g' : Group.t) : Prop :=
  Group._id g' = Group._id g /\ Group.name g' = Group.name g /\
  Group.members g' = Group.members g /\
  Group.messages g `prefix_of` Group.messages g'.

(** Groups keep their place, id, name and members; messages only grow. *)
Definition groups_grow (a b : World) : Prop :=
  forall i g, groups a !! i = Some g ->
    exists g', groups b !! i = Some g' /\ group_grows g g'.

(** ** socket.io: rooms and delivery *)

Definition SocketId := string.

(** [joined] holds the rooms each socket is in; a room is named by a
    group's [_id.toString()].  [delivered] holds the events the server has
    sent to each socket, oldest first. *)
Record Sockets := {
  joined : list (SocketId * ObjectId);
  delivered : list (SocketId * Emit)
}.

Definition no_sockets : Sockets := {| joined := []; delivered := [] |}.

Definition is_socket (sid : SocketId) (p : SocketId * ObjectId) : bool :=
  String.eqb (fst p) sid.

Definition is_room (r : ObjectId) (p : SocketId * ObjectId) : bool :=
  N.eqb (snd p) r.

(** [socket.join(room)]: a room is a set of sockets. *)
Definition socket_join (sid : SocketId) (r : ObjectId) (s : Sockets) : Sockets :=
  if existsb (fun p => is_socket sid p && is_room r p) (joined s) then s
  else {| joined := joined s ++ [(sid, r)]; delivered := delivered s |}.

(** A socket that disconnects leaves every room. *)
Definition socket_leave_all (sid : SocketId) (s : Sockets) : Sockets :=
  {| joined := List.filter (fun p => negb (is_socket sid p)) (joined s);
     delivered := delivered s |}.

Inductive SocketEvent :=
| Connection (sid : SocketId)
| JoinGroup (sid : SocketId) (groupId : ObjectId)
| Disconnect (sid : SocketId).

(** [io.on("connection", ...)] with its [joinGroup] and [disconnect]
    listeners; apart from [socket.join] the listeners only log. *)
Definition on_socket_event (e : SocketEvent) (s : Sockets) : Sockets :=
  match e with
  | Connection sid => s
  | JoinGroup sid groupId => socket_join sid groupId s
  | Disconnect sid => socket_leave_all sid s
  end.

Definition room_sockets (r : ObjectId) (s : Sockets) : list SocketId :=
  map fst (List.filter (is_room r) (joined s)).

(** What [io.to(room).emit(event, data)] does to the sockets: one copy to
    each socket in the room. *)
Definition deliver (s : Sockets) (e : Emit) : Sockets :=
  {| joined := joined s;
     delivered := delivered s
                  ++ map (fun sid => (sid, e)) (room_sockets (room e) s) |}.

Inductive Event :=
| Http (c : Call)
| Socket (e : SocketEvent).

Section Realtime.
Context {str : JsString} {bc : Bcrypt} {jc : JwtCodec} {oc : ObjectIdCast}.

(** One event of the server: a request, whose new emissions are delivered,
    or a socket event. *)
Definition step (env : Env) (ev : Event) (st : World * Sockets)
    : World * Sockets :=
  match ev with
  | Http c =>
      let w' := snd (serve env c (fst st)) in
      (w', fold_left deliver (drop (length (emitted (fst st))) (emitted w'))
                     (snd st))
  | Socket e => (fst st, on_socket_event e (snd st))
  end.

Fixpoint steps (env : Env) (evs : list Event) (st : World * Sockets)
    : World * Sockets :=
  match evs with
  | [] => st
  | ev :: rest => steps env rest (step env ev st)
  end.
End Realtime.

(** ** An executable instance of the library interfaces

    Small implementations of the operations of [JsString], [Bcrypt],
    [JwtCodec] and [ObjectIdCast], and sample requests and stores, so that
    the handlers run on concrete requests. *)

Module Reference.
(** Lowering of the letters A-Z, and of the capital letters of the Latin-1
    supplement (U+00C0 to U+00DE but U+00D7), which UTF-8 writes as the
    byte C3 and a second byte. *)
Definition lower_ascii (c : ascii) : ascii :=
  let n := N_of_ascii c in
  if ((65 <=? n) && (n <=? 90))%N then ascii_of_N (n + 32) else c.

Definition lower_latin1 (c : ascii) : ascii :=
  let n := N_of_ascii c in
  if ((128 <=? n) && (n <=? 158) && negb (n =? 151))%N
  then ascii_of_N (n + 32) else c.

Definition lead_C3 : ascii := ascii_of_N 195.

Fixpoint lower (s : string) : string :=
  match s with
  | EmptyString => EmptyString
  | String c r =>
      if Ascii.eqb c lead_C3 then
        match r with
        | EmptyString => String c EmptyString
        | String d r' => String c (String (lower_latin1 d) (lower r'))
        end
      else String (lower_ascii c) (lower r)
  end.

Definition js : JsString := {| toLowerCase := lower |}.

(** An ObjectId in its string form: 24 hexadecimal digits. *)
Definition hex_digit (c : ascii) : option N :=
  let n := N_of_ascii c in
  if ((48 <=? n) && (n <=? 57))%N then Some (n - 48)%N
  else if ((97 <=? n) && (n <=? 102))%N then Some (n - 87)%N
  else if ((65 <=? n) && (n <=? 70))%N then Some (n - 55)%N
  else None.

Fixpoint hex_value (acc : N) (s : string) : option N :=
  match s with
  | EmptyString => Some acc
  | String c r => d ← hex_digit c; hex_value (16 * acc + d)%N r
  end.

Definition cast_hex (s : string) : option ObjectId :=
  if Nat.eqb (String.length s) 24 then hex_value 0%N s else None.

Definition hex_char (d : N) : ascii :=
  if (d <? 10)%N then ascii_of_N (d + 48) else ascii_of_N (d + 87).

Fixpoint hex_string (digits : nat) (n : N) (acc : string) : string :=
  match digits with
  | O => acc
  | S k => hex_string k (n / 16)%N (String (hex_char (n mod 16)%N) acc)
  end.

(** [oid.toString()] *)
Definition oid_string (o : ObjectId) : string := hex_string 24 o "".

Definition cast : ObjectIdCast := {| castObjectId := cast_hex |}.

(** A toy bcrypt which, like the library, reads the first 72 bytes of a
    password only: the digest is those bytes behind a mark that differs
    from the password's first byte. *)
Fixpoint take_bytes (n : nat) (s : string) : string :=
  match n, s with
  | S k, String c r => String c (take_bytes k r)
  | _, _ => EmptyString
  end.

Definition mark (pw : string) : ascii :=
  match pw with
  | String c _ => if Ascii.eqb c "$" then "#"%char else "$"%char
  | EmptyString => "$"%char
  end.

Definition digest (pw : string) : string :=
  String (mark pw) (take_bytes 72 pw).

Definition hash (pw : string) (rounds : nat) (salt : string) : string :=
  digest pw.

Definition compare (pw d : string) : bool := String.eqb d (digest pw).

Fixpoint digits (p : positive) : string :=
  match p with
  | xH => "e"
  | xO q => String "0" (digits q)
  | xI q => String "1" (digits q)
  end.

Fixpoint undigits (s : string) : option positive :=
  match s with
  | EmptyString => None
  | String c r =>
      if Ascii.eqb c "e" then
        match r with EmptyString => Some xH | _ => None end
      else if Ascii.eqb c "0" then xO <$> undigits r
      else if Ascii.eqb c "1" then xI <$> undigits r
      else None
  end.

Definition fields (t : Jwt.t) : N * string * Z * Z * string :=
  (Jwt.userId (Jwt.claims t), Jwt.email (Jwt.claims t),
   Jwt.iat (Jwt.claims t), Jwt.exp (Jwt.claims t), Jwt.signature t).

Definition of_fields (f : N * string * Z * Z * string) : Jwt.t :=
  let '(uid, mail, i, e, sg) := f in
  {| Jwt.claims := {| Jwt.userId := uid; Jwt.email := mail;
                      Jwt.iat := i; Jwt.exp := e |};
     Jwt.signature := sg |}.

Definition mac (key : string) (p : Jwt.payload) : string :=
  key +:+ "." +:+ Jwt.email p.

Definition token_string (t : Jwt.t) : string := digits (encode (fields t)).

Definition token_parse (s : string) : option Jwt.t :=
  p ← undigits s; of_fields <$> decode p.

Definition bcrypt : Bcrypt :=
  {| bcrypt_hash := hash; bcrypt_compare := compare |}.

Definition codec : JwtCodec :=
  {| jwt_mac := mac; jwt_encode := token_string; jwt_decode := token_parse |}.

Definition env : Env := {| JWT_SECRET := Some "s3cret" |}.

(** A request whose path segment [:id] is [id]. *)
Definition request_at (auth : option string) (nm em pw tx : option string)
    (id : string) : Req.t :=
  {| Req.authorization := auth;
     Req.body := {| Body.name := nm; Body.email := em;
                    Body.password := pw; Body.text := tx |};
     Req.id := id |}.

(** A request whose path segment is the string form of [gid]. *)
Definition request (auth : option string) (nm em pw tx : option string)
    (gid : ObjectId) : Req.t :=
  request_at auth nm em pw tx (oid_string gid).

Definition empty : World :=
  {| users := []; groups := []; emitted := []; next_oid := 1%N |}.

(** The user that registering A / A@x.com / p in [empty] stores. *)
Definition alice : User.t :=
  {| User._id := 1%N; User.name := Some "A"; User.email := "a@x.com";
     User.password := hash "p" 10 "salt" |}.

Definition after_alice : World :=
  {| users := [alice]; groups := []; emitted := []; next_oid := 2%N |}.

(** The claims and the token of alice's login at [Date.now() = 0]. *)
Definition alice_claims : Jwt.payload :=
  {| Jwt.userId := 1%N; Jwt.email := "a@x.com";
     Jwt.iat := 0; Jwt.exp := 3600 |}.

Definition alice_token : string :=
  token_string {| Jwt.claims := alice_claims;
                  Jwt.signature := mac "s3cret" alice_claims |}.

Definition bearer (tok : string) : option string := Some ("Bearer " +:+ tok).

(** A group alice is not a member of, and the store that holds it. *)
Definition bobs_group : Group.t :=
  {| Group._id := 2%N; Group.name := Some "Goa"; Group.members := ["b@x.com"];
     Group.messages := [] |}.

Definition alices_group : Group.t :=
  {| Group._id := 3%N; Group.name := Some "Hampi";
     Group.members := ["a@x.com"; "b@x.com"]; Group.messages := [] |}.

Definition with_groups : World :=
  {| users := [alice]; groups := [bobs_group; alices_group]; emitted := [];
     next_oid := 4%N |}.

(** Sample requests. *)
Definition register_A : Req.t :=
  request None (Some "A") (Some "A@x.com") (Some "p") None 0%N.

Definition register_a : Req.t :=
  request None (Some "A") (Some "a@x.com") (Some "p") None 0%N.

Definition login_a : Req.t :=
  request None None (Some "a@X.COM") (Some "p") None 0%N.

Definition login_bad : Req.t :=
  request None None (Some "A@x.com") (Some "q") None 0%N.

(** A request that carries alice's token: a body with [name] "Goa" and
    [text] "hi", for the group [gid]. *)
Definition as_alice (gid : ObjectId) : Req.t :=
  request (bearer alice_token) (Some "Goa") None None (Some "hi") gid.

Definition hi_from_alice : Message.t :=
  {| Message.sender := "a@x.com"; Message.text := Some "hi";
     Message.timestamp := 1000 |}.
End Reference.

(** Further sample data: a second user's token, calls and socket events. *)
Module Scenario.
Definition bob_claims : Jwt.payload :=
  {| Jwt.userId := 5%N; Jwt.email := "b@x.com"; Jwt.iat := 0; Jwt.exp := 3600 |}.

Definition bob_token : string :=
  Reference.token_string {| Jwt.claims := bob_claims;
                            Jwt.signature := Reference.mac "s3cret" bob_claims |}.

(** A request that carries bob's token. *)
Definition as_bob : Req.t :=
  Reference.request (Reference.bearer bob_token) None None None None 0%N.

Definition call (r : Route) (req : Req.t) : Call :=
  {| route := r; now_ms := 1000; request := req |}.

(** Alice sends "hi" to the group with id 2. *)
Definition send_hi : Call := call PostGroupsMessage (Reference.as_alice 2%N).

Definition hi_emit : Emit :=
  {| room := 2%N; event := "newMessage"; data := Reference.hi_from_alice |}.

Definition register_B : Req.t :=
  Reference.request None (Some "B") (Some "B@x.com") (Some "q") None 0%N.

(** A busy afternoon: a registration, a new group, a message, a listing. *)
Definition traffic : list Call :=
  [call (PostAuthRegister "nacl") register_B;
   call PostGroups (Reference.as_alice 0%N);
   send_hi;
   call GetGroups as_bob].

(** Alice sends "hi" to [/api/groups/9/message]. *)
Definition alice_to_9 : Req.t :=
  Reference.request_at (Reference.bearer Reference.alice_token)
    (Some "Goa") None None (Some "hi") "9".

(** Two registrations whose emails differ in the case of a letter that is
    not ASCII. *)
Definition register_E : Req.t :=
  Reference.request None (Some "E") (Some "É@X.com") (Some "p") None 0%N.

Definition register_e : Req.t :=
  Reference.request None (Some "e") (Some "é@x.com") (Some "q") None 0%N.

(** Two passwords of 73 bytes that differ in the last byte only. *)
Definition seventy_two : string :=
  "aaaaaaaaaaaaaaaaaaaaaaaaaaaaaaaaaaaaaaaaaaaaaaaaaaaaaaaaaaaaaaaaaaaaaaaa".

Definition long_1 : string := seventy_two +:+ "1".
Definition long_2 : string := seventy_two +:+ "2".

Definition register_long : Req.t :=
  Reference.request None (Some "L") (Some "l@x.com") (Some long_1) None 0%N.

Definition login_long_wrong : Req.t :=
  Reference.request None None (Some "l@x.com") (Some long_2) None 0%N.

(** Socket s1 joins room 2, twice; socket s2 connects and joins room 3. *)
Definition joins : list Event :=
  [Socket (Connection "s1"); Socket (JoinGroup "s1" 2%N);
   Socket (JoinGroup "s1" 2%N); Socket (Connection "s2");
   Socket (JoinGroup "s2" 3%N)].
End Scenario.

(** * Properties *)

(** ** The reference instance satisfies the interfaces *)

Lemma reference_lower_ascii_idemp c :
  Reference.lower_ascii (Reference.lower_ascii c) = Reference.lower_ascii c.
Proof. destruct c as [[] [] [] [] [] [] [] []]; reflexivity. Qed.

Lemma reference_lower_latin1_idemp c :
  Reference.lower_latin1 (Reference.lower_latin1 c) = Reference.lower_latin1 c.
Proof. destruct c as [[] [] [] [] [] [] [] []]; reflexivity. Qed.

Lemma reference_lower_ascii_lead c :
  Ascii.eqb c Reference.lead_C3 = false ->
  Ascii.eqb (Reference.lower_ascii c) Reference.lead_C3 = false.
Proof. destruct c as [[] [] [] [] [] [] [] []]; intros E; exact E || reflexivity. Qed.

(** The lowering reads one or two bytes at a time. *)
Lemma reference_lower_idemp_upto n s :
  (String.length s <= n)%nat ->
  Reference.lower (Reference.lower s) = Reference.lower s.
Proof.
  revert s. induction n as [|n IH]; intros [|c r] Hn; simpl in *;
    try reflexivity; try lia.
  destruct (Ascii.eqb c Reference.lead_C3) eqn:Hc.
  - destruct r as [|d r']; simpl; rewrite Hc; [reflexivity|].
    rewrite reference_lower_latin1_idemp, IH by (simpl in Hn; lia).
    reflexivity.
  - simpl. rewrite (reference_lower_ascii_lead _ Hc).
    rewrite reference_lower_ascii_idemp, IH by lia. reflexivity.
Qed.

Lemma reference_lower_nonempty s : s <> "" -> Reference.lower s <> "".
Proof.
  destruct s as [|c r]; [congruence|]. intros _. simpl.
  destruct (Ascii.eqb c Reference.lead_C3); [destruct r|]; discriminate.
Qed.

Lemma reference_js_laws : @JsStringLaws Reference.js.
Proof.
  split.
  - intros s. apply (reference_lower_idemp_upto (String.length s)). lia.
  - reflexivity.
  - apply reference_lower_nonempty.
Qed.

Lemma reference_compare_hash pw rounds salt :
  Reference.compare pw (Reference.hash pw rounds salt) = true.
Proof. apply String.eqb_refl. Qed.

Lemma reference_hash_not_plain pw rounds salt :
  Reference.hash pw rounds salt <> pw.
Proof.
  unfold Reference.hash, Reference.digest. destruct pw as [|c r]; simpl;
    [discriminate|].
  destruct (Ascii.eqb_spec c "$") as [->|Hc]; intros [= E]; congruence.
Qed.

Lemma reference_undigits_digits p :
  Reference.undigits (Reference.digits p) = Some p.
Proof. induction p as [q IH|q IH|]; cbn; rewrite ?IH; reflexivity. Qed.

Lemma reference_digits_no_space p : has_char " " (Reference.digits p) = false.
Proof. induction p as [q IH|q IH|]; cbn; rewrite ?IH; reflexivity. Qed.

Lemma reference_digits_nonempty p : Reference.digits p <> "".
Proof. destruct p; discriminate. Qed.

Lemma reference_of_fields_fields t :
  Reference.of_fields (Reference.fields t) = t.
Proof. destruct t as [[] ?]; reflexivity. Qed.

Lemma reference_token_parse_string t :
  Reference.token_parse (Reference.token_string t) = Some t.
Proof.
  unfold Reference.token_parse, Reference.token_string.
  rewrite reference_undigits_digits. cbn.
  rewrite decode_encode. cbn. f_equal. apply reference_of_fields_fields.
Qed.

Lemma reference_bcrypt_laws : @BcryptLaws Reference.bcrypt.
Proof.
  split.
  - apply reference_compare_hash.
  - discriminate.
  - apply reference_hash_not_plain.
Qed.

Lemma reference_codec_laws : @JwtCodecLaws Reference.codec.
Proof.
  split.
  - apply reference_token_parse_string.
  - intros t. apply reference_digits_no_space.
  - intros t. apply reference_digits_nonempty.
Qed.

(** ** Strings *)

(** A string without the separator is one piece. *)
Lemma split_one sep s : has_char sep s = false -> split sep s = [s].
Proof.
  induction s as [|c r IH]; cbn; [reflexivity|].
  intros Hc. apply orb_false_iff in Hc as [Hc Hr].
  rewrite Hc, (IH Hr). reflexivity.
Qed.

(** The first piece ends at the first separator. *)
Lemma split_app sep a r :
  has_char sep a = false ->
  split sep (a +:+ String sep r) = a :: split sep r.
Proof.
  induction a as [|c a IH]; simpl.
  - intros _. rewrite Ascii.eqb_refl. reflexivity.
  - intros Hc. apply orb_false_iff in Hc as [Hc Ha].
    rewrite Hc, (IH Ha). reflexivity.
Qed.

Lemma append_nil_r s : s +:+ "" = s.
Proof. induction s as [|c s IH]; simpl; [|rewrite IH]; reflexivity. Qed.

(** ** The middleware *)

Section MiddlewareFacts.
Context `{JwtCodecLaws}.

Lemma bearer_token_two_fields scheme tok rest :
  has_char " " scheme = false ->
  has_char " " tok = false ->
  rest = "" \/ (exists r, rest = String " " r) ->
  bearer_token (Some (scheme +:+ String " " (tok +:+ rest))) = Some tok.
Proof.
  intros Hs Ht Hr. unfold bearer_token. cbn.
  rewrite (split_app _ _ _ Hs).
  destruct Hr as [->|[r ->]].
  - rewrite append_nil_r, (split_one _ _ Ht). reflexivity.
  - rewrite (split_app _ _ _ Ht). reflexivity.
Qed.

Lemma authenticateUser_bearer env now tok :
  has_char " " tok = false ->
  authenticateUser env now (Some ("Bearer " +:+ tok)) = on_token env now tok.
Proof.
  intros Ht. unfold authenticateUser.
  change ("Bearer " +:+ tok) with ("Bearer" +:+ String " " tok).
  rewrite <- (append_nil_r tok) at 1.
  rewrite bearer_token_two_fields by (auto; reflexivity).
  reflexivity.
Qed.
End MiddlewareFacts.

(** A string that has the separator splits at its first occurrence. *)
Lemma first_field sep s :
  has_char sep s = true ->
  exists a r, s = a +:+ String sep r /\ has_char sep a = false.
Proof.
  induction s as [|c s IH]; simpl; [discriminate|].
  destruct (Ascii.eqb_spec c sep) as [->|Hc]; simpl.
  - intros _. exists "", s. split; reflexivity.
  - intros Hs. destruct (IH Hs) as (a & r & -> & Ha).
    exists (String c a), r. split; [reflexivity|].
    simpl. apply Ascii.eqb_neq in Hc. rewrite Hc, Ha. reflexivity.
Qed.

(** Every header is one field, or a first and a second field followed by
    nothing or by a further separator. *)
Lemma header_fields h :
  has_char " " h = false \/
  exists scheme tok rest,
    h = scheme +:+ String " " (tok +:+ rest) /\
    has_char " " scheme = false /\ has_char " " tok = false /\
    (rest = "" \/ exists r, rest = String " " r).
Proof.
  destruct (has_char " " h) eqn:Hh; [right|left; reflexivity].
  destruct (first_field _ _ Hh) as (scheme & r & -> & Hs).
  destruct (has_char " " r) eqn:Hr.
  - destruct (first_field _ _ Hr) as (tok & r' & -> & Ht).
    exists scheme, tok, (String " " r'). eauto 10.
  - exists scheme, r, "". rewrite append_nil_r. eauto 10.
Qed.

Section MiddlewareMachine.
Context `{JwtCodecLaws}.

(** C1 (as amended): the middleware is a three-state machine on the
    header's second space-separated field.  No header, or a header of one
    field: 401.  A header [<scheme> <tok>...]: 401 when [tok] is empty;
    otherwise 403 when [jwt.verify] fails on [tok], and when it succeeds
    the decoded claims are attached and the handler runs.  Every header is
    of one of these two shapes; the scheme word is never looked at. *)
Theorem authenticateUser_state_machine env now authorization :
  (authorization = None ->
     authenticateUser env now authorization = reject_401) /\
  (forall h, authorization = Some h -> has_char " " h = false ->
     authenticateUser env now authorization = reject_401) /\
  (forall scheme tok rest,
     authorization = Some (scheme +:+ String " " (tok +:+ rest)) ->
     has_char " " scheme = false -> has_char " " tok = false ->
     (rest = "" \/ exists r, rest = String " " r) ->
     (tok = "" -> authenticateUser env now authorization = reject_401) /\
     (tok <> "" -> forall err,
        jwt_verify tok (JWT_SECRET env) now = inl err ->
        authenticateUser env now authorization = reject_403) /\
     (tok <> "" -> forall decoded,
        jwt_verify tok (JWT_SECRET env) now = inr decoded ->
        authenticateUser env now authorization = Next decoded)) /\
  (forall h, authorization = Some h ->
     has_char " " h = false \/
     exists scheme tok rest,
       h = scheme +:+ String " " (tok +:+ rest) /\
       has_char " " scheme = false /\ has_char " " tok = false /\
       (rest = "" \/ exists r, rest = String " " r)).
Proof.
  split; [intros ->; reflexivity|]. split; [|split].
  3:{ intros h _. apply header_fields. }
  - intros h -> Hh. unfold authenticateUser, bearer_token. simpl.
    rewrite (split_one _ _ Hh). reflexivity.
  - intros scheme tok rest -> Hs Ht Hr. unfold authenticateUser.
    rewrite (bearer_token_two_fields _ _ _ Hs Ht Hr).
    repeat split.
    + intros ->. reflexivity.
    + intros Hne err Hv. apply String.eqb_neq in Hne. rewrite Hne, Hv.
      reflexivity.
    + intros Hne d Hv. apply String.eqb_neq in Hne. rewrite Hne, Hv.
      reflexivity.
Qed.
End MiddlewareMachine.

(** ** Collections *)

Lemma find_none_existsb {A} (f : A -> bool) l :
  List.find f l = None -> existsb f l = false.
Proof.
  induction l as [|a l IH]; simpl; [reflexivity|].
  destruct (f a); [discriminate|exact IH].
Qed.

Lemma find_none_filter {A} (f : A -> bool) l :
  List.find f l = None -> List.filter f l = [].
Proof.
  induction l as [|a l IH]; simpl; [reflexivity|].
  destruct (f a); [discriminate|exact IH].
Qed.

Lemma find_some_app {A} (f : A -> bool) l k a :
  List.find f l = Some a -> List.find f (l ++ k) = Some a.
Proof.
  induction l as [|b l IH]; simpl; [discriminate|].
  destruct (f b); [trivial|exact IH].
Qed.

Lemma find_none_app {A} (f : A -> bool) l k :
  List.find f l = None -> List.find f (l ++ k) = List.find f k.
Proof.
  induction l as [|b l IH]; simpl; [reflexivity|].
  destruct (f b); [discriminate|exact IH].
Qed.

(** Unfolds a handler down to the state-passing function it denotes. *)
Ltac run_handler :=
  unfold post_auth_register, post_auth_login, get_auth_user, post_groups,
    get_groups, post_groups_message, protected, try_catch,
    User_findOne_email, User_findById, User_save, Group_findById,
    Group_find_member, Group_insert, Group_update, io_emit, new_ObjectId,
    js_toLowerCase, js_bcrypt_hash, js_bcrypt_compare, get_world, put_world,
    lift, throw, mbind, M_bind, mret, M_ret;
  simpl.

(** The same for a handler that writes to the console. *)
Ltac run_logged :=
  unfold post_auth_register_logged, post_auth_login_logged, try_catch_L,
    quiet, console_log, mbind, L_bind, mret, L_ret;
  run_handler.

(** Each line of a list of console lines shows one of two things. *)
Ltac console_lines :=
  simpl;
  repeat (constructor;
          [first [left; reflexivity | right; eexists; reflexivity]|]);
  constructor.

(** ** Users are only ever added *)

Section UsersGrow.
Context `{JsStringLaws} `{BcryptLaws} `{JwtCodecLaws} `{ObjectIdCast}.

(** A registration always answers; it touches neither groups nor
    emissions, and either leaves the users alone or appends [new_user]. *)
Lemma post_auth_register_total salt req w :
  exists r w',
    post_auth_register salt req w = (inr r, w') /\
    groups w' = groups w /\ emitted w' = emitted w /\
    (users w' = users w \/
     exists E P,
       Body.email (Req.body req) = Some E /\
       Body.password (Req.body req) = Some P /\
       users w' = users w ++ [new_user w (Body.name (Req.body req)) E P salt]).
Proof.
  run_handler.
  destruct (Body.email (Req.body req)) as [E|]; simpl; [|eauto 10].
  destruct (List.find _ (users w)) as [u|] eqn:Hu; simpl; [eauto 10|].
  destruct (Body.password (Req.body req)) as [P|]; simpl; [|eauto 10].
  destruct (User_validate _); simpl; [|eauto 10].
  rewrite (find_none_existsb _ _ Hu). simpl.
  eexists _, _. split; [reflexivity|]. simpl. eauto 10.
Qed.

Lemma serve_users_prefix env c w :
  users w `prefix_of` users (snd (serve env c w)).
Proof.
  unfold serve. destruct (route c) as [salt| | | | |].
  - destruct (post_auth_register_total salt (request c) w)
      as (r & w' & Hrun & _ & _ & Hu).
    rewrite Hrun. simpl. destruct Hu as [-> | (E & P & _ & _ & ->)];
      [reflexivity|apply prefix_app_r; reflexivity].
  - run_handler.
    destruct (Body.email (Req.body (request c))); simpl; [|reflexivity].
    destruct (List.find _ (users w)); simpl; [|reflexivity].
    destruct (Body.password (Req.body (request c))); simpl; [|reflexivity].
    destruct (bcrypt_compare _ _); simpl; [|reflexivity].
    destruct (jwt_sign _ _ _ _ _); reflexivity.
  - run_handler. destruct (authenticateUser _ _ _); [reflexivity|].
    destruct (List.find _ (users w)); reflexivity.
  - run_handler. destruct (authenticateUser _ _ _); reflexivity.
  - run_handler. destruct (authenticateUser _ _ _); reflexivity.
  - run_handler. destruct (authenticateUser _ _ _); [reflexivity|].
    destruct (castObjectId _); simpl; [|reflexivity].
    destruct (List.find _ (groups w)); reflexivity.
Qed.

Lemma run_users_prefix env calls w :
  users w `prefix_of` users (run env calls w).
Proof.
  revert w. induction calls as [|c rest IH]; intros w; simpl; [reflexivity|].
  etransitivity; [apply serve_users_prefix|apply IH].
Qed.
End UsersGrow.

(** ** Registration *)

Section Registration.
Context `{JsStringLaws} `{BcryptLaws} `{JwtCodecLaws} `{ObjectIdCast}.

Lemma post_auth_register_fresh salt req w E P :
  Body.email (Req.body req) = Some E -> E <> "" ->
  Body.password (Req.body req) = Some P ->
  required (Body.name (Req.body req)) = true ->
  List.find (by_email (toLowerCase E)) (users w) = None ->
  post_auth_register salt req w =
    (inr registered_201,
     {| users := users w ++ [new_user w (Body.name (Req.body req)) E P salt];
        groups := groups w; emitted := emitted w;
        next_oid := N.succ (next_oid w) |}).
Proof.
  intros HE HEne HP Hname Hfresh. run_handler.
  rewrite HE, HP. simpl. rewrite Hfresh. simpl.
  unfold User_validate. simpl. rewrite Hname. simpl.
  apply toLowerCase_nonempty, String.eqb_neq in HEne. rewrite HEne.
  pose proof (bcrypt_hash_nonempty P 10 salt) as Hh.
  apply String.eqb_neq in Hh. rewrite Hh. simpl.
  rewrite (find_none_existsb _ _ Hfresh). reflexivity.
Qed.

Lemma post_auth_register_duplicate salt req w E u :
  Body.email (Req.body req) = Some E ->
  List.find (by_email (toLowerCase E)) (users w) = Some u ->
  post_auth_register salt req w
    = (inr (json_error 400 "Email already in use"), w).
Proof.
  intros HE Hu. run_handler. rewrite HE. simpl.
  rewrite Hu. reflexivity.
Qed.

(** C4: of two registrations whose emails agree after lowercasing, the
    first (a fresh email; name, email and password given, name and email
    not empty) is answered 201 and inserts one record; the second is
    answered 400 "Email already in use"
    and leaves the store as it is, whether it comes right away or after any
    further requests; one record holds the email. *)
Theorem register_same_email_twice env salt1 salt2 req1 req2 w E1 E2 P1 :
  Body.email (Req.body req1) = Some E1 -> E1 <> "" ->
  Body.password (Req.body req1) = Some P1 ->
  required (Body.name (Req.body req1)) = true ->
  List.find (by_email (toLowerCase E1)) (users w) = None ->
  Body.email (Req.body req2) = Some E2 ->
  toLowerCase E2 = toLowerCase E1 ->
  exists w1 u,
    post_auth_register salt1 req1 w = (inr registered_201, w1) /\
    users w1 = users w ++ [u] /\
    User.email u = toLowerCase E1 /\
    post_auth_register salt2 req2 w1
      = (inr (json_error 400 "Email already in use"), w1) /\
    (forall calls,
       post_auth_register salt2 req2 (run env calls w1)
         = (inr (json_error 400 "Email already in use"), run env calls w1)) /\
    length (List.filter (by_email (toLowerCase E1)) (users w1)) = 1%nat.
Proof.
  intros HE1 Hne HP1 Hname Hfresh HE2 Hlow.
  eexists _, (new_user w (Body.name (Req.body req1)) E1 P1 salt1).
  split; [apply post_auth_register_fresh; eassumption|].
  simpl.
  assert (Hfound : List.find (by_email (toLowerCase E1))
                     (users w ++ [new_user w (Body.name (Req.body req1))
                                           E1 P1 salt1])
                   = Some (new_user w (Body.name (Req.body req1)) E1 P1 salt1)).
  { rewrite (find_none_app _ _ _ Hfresh). simpl. unfold by_email. simpl.
    rewrite String.eqb_refl. reflexivity. }
  split; [reflexivity|]. split; [reflexivity|]. split; [|split].
  - eapply post_auth_register_duplicate; [eassumption|].
    rewrite Hlow. exact Hfound.
  - intros calls.
    destruct (run_users_prefix env calls
                {| users := users w ++ [new_user w (Body.name (Req.body req1))
                                                 E1 P1 salt1];
                   groups := groups w; emitted := emitted w;
                   next_oid := N.succ (next_oid w) |}) as [k Hk].
    eapply post_auth_register_duplicate; [eassumption|].
    rewrite Hlow, Hk. apply find_some_app. exact Hfound.
  - rewrite List.filter_app, (find_none_filter _ _ Hfresh). simpl.
    unfold by_email. simpl. rewrite String.eqb_refl. reflexivity.
Qed.
End Registration.

(** ** Login and token expiry *)

Section Login.
Context `{JsStringLaws} `{BcryptLaws} `{JwtCodecLaws} `{ObjectIdCast}.

Lemma jwt_sign_login key u now :
  key <> "" ->
  jwt_sign (User._id u) (User.email u) (Some key) expiresIn_1h now
    = inr (login_token key u now).
Proof.
  intros Hk. unfold jwt_sign. apply String.eqb_neq in Hk. rewrite Hk.
  reflexivity.
Qed.

Lemma jwt_verify_login_token key u now now' :
  key <> "" ->
  jwt_verify (login_token key u now) (Some key) now' =
    if numeric_date now + expiresIn_1h <=? numeric_date now'
    then inl Jwt.TokenExpired else inr (login_claims u now).
Proof.
  intros Hk. unfold jwt_verify, login_token.
  rewrite jwt_decode_encode. apply String.eqb_neq in Hk. rewrite Hk.
  simpl. rewrite String.eqb_refl. reflexivity.
Qed.

Lemma authenticateUser_login_token env key u now now' :
  JWT_SECRET env = Some key -> key <> "" ->
  authenticateUser env now' (Some ("Bearer " +:+ login_token key u now)) =
    if numeric_date now + expiresIn_1h <=? numeric_date now'
    then reject_403 else Next (login_claims u now).
Proof.
  intros Henv Hk.
  rewrite authenticateUser_bearer by apply jwt_encode_no_space.
  unfold on_token. rewrite Henv, (jwt_verify_login_token _ _ _ _ Hk).
  pose proof (jwt_encode_nonempty
                {| Jwt.claims := login_claims u now;
                   Jwt.signature := jwt_mac key (login_claims u now) |}) as Hne.
  apply String.eqb_neq in Hne. fold (login_token key u now) in Hne.
  rewrite Hne. destruct (_ <=? _); reflexivity.
Qed.

Lemma post_auth_login_found env now req w E P u :
  Body.email (Req.body req) = Some E ->
  Body.password (Req.body req) = Some P ->
  List.find (by_email (toLowerCase E)) (users w) = Some u ->
  post_auth_login env now req w =
    if bcrypt_compare P (User.password u) then
      match jwt_sign (User._id u) (User.email u) (JWT_SECRET env)
              expiresIn_1h now with
      | inr tok => (inr (login_200 tok), w)
      | inl _ => (inr (json_error 500 "Server error during login"), w)
      end
    else (inr (json_error 400 "Invalid password"), w).
Proof.
  intros HE HP Hu. run_handler. rewrite HE, HP. simpl.
  rewrite Hu. simpl.
  destruct (bcrypt_compare P (User.password u)); simpl; [|reflexivity].
  destruct (jwt_sign _ _ _ _ _); reflexivity.
Qed.

(** Whatever a login answers with a [token] field was signed for a stored
    user with the configured secret. *)
Lemma post_auth_login_token_inv env now req w r w' tok :
  post_auth_login env now req w = (inr r, w') ->
  json_get "token" (body r) = Some (JStr tok) ->
  exists key u,
    JWT_SECRET env = Some key /\ key <> "" /\ u ∈ users w /\
    tok = login_token key u now /\ r = login_200 tok /\ w' = w.
Proof.
  run_handler.
  destruct (Body.email (Req.body req)) as [E|]; simpl; [|discriminate].
  destruct (List.find _ (users w)) as [u|] eqn:Hu; simpl.
  2:{ intros [= <- <-]. discriminate. }
  destruct (Body.password (Req.body req)) as [P|]; simpl.
  2:{ intros [= <- <-]. discriminate. }
  destruct (bcrypt_compare P (User.password u)); simpl.
  2:{ intros [= <- <-]. discriminate. }
  unfold jwt_sign.
  destruct (JWT_SECRET env) as [key|]; simpl.
  2:{ intros [= <- <-]. discriminate. }
  destruct (String.eqb_spec key "") as [->|Hk]; simpl.
  { intros [= <- <-]. discriminate. }
  intros [= <- <-]. simpl. intros [= <-].
  exists key, u. repeat split; try assumption; try reflexivity.
  apply list_elem_of_In. eapply List.find_some. exact Hu.
Qed.

(** C3: a token issued by login carries [iat], the issuance instant in
    whole seconds, and [exp = iat + 3600].  At every instant strictly before
    [iat + 1h] the middleware accepts it and attaches those same claims; at
    every instant from [iat + 1h] on, verification fails as expired and the
    middleware answers 403.  The deadline is fixed by the token and does not
    move with use. *)
Theorem login_token_expires_after_1h env now req w r w' tok :
  post_auth_login env now req w = (inr r, w') ->
  json_get "token" (body r) = Some (JStr tok) ->
  exists claims,
    Jwt.iat claims = numeric_date now /\
    Jwt.exp claims = Jwt.iat claims + 60 * 60 /\
    forall now',
      (now' < (Jwt.iat claims + 60 * 60) * 1000 ->
         jwt_verify tok (JWT_SECRET env) now' = inr claims /\
         authenticateUser env now' (Some ("Bearer " +:+ tok)) = Next claims) /\
      ((Jwt.iat claims + 60 * 60) * 1000 <= now' ->
         jwt_verify tok (JWT_SECRET env) now' = inl Jwt.TokenExpired /\
         authenticateUser env now' (Some ("Bearer " +:+ tok)) = reject_403).
Proof.
  intros Hlogin Htok.
  destruct (post_auth_login_token_inv _ _ _ _ _ _ _ Hlogin Htok)
    as (key & u & Henv & Hk & _ & -> & _ & _).
  exists (login_claims u now). split; [reflexivity|]. split; [reflexivity|].
  intros now'.
  rewrite (authenticateUser_login_token _ _ _ _ _ Henv Hk), Henv,
    (jwt_verify_login_token _ _ _ _ Hk).
  simpl. unfold expiresIn_1h, numeric_date.
  split; intros Hnow.
  - destruct (Z.leb_spec (now / 1000 + 60 * 60) (now' / 1000)) as [Hle|Hlt];
      [|split; reflexivity].
    exfalso. Z.div_mod_to_equations. lia.
  - destruct (Z.leb_spec (now / 1000 + 60 * 60) (now' / 1000)) as [Hle|Hlt];
      [split; reflexivity|].
    exfalso. Z.div_mod_to_equations. lia.
Qed.
End Login.

(** ** Registered users can log in *)

Section Accounts.
Context `{JsStringLaws} `{BcryptLaws} `{JwtCodecLaws} `{ObjectIdCast}.

(** A registration answered 201 had an email and a password, found the
    email free, and inserted exactly [new_user]. *)
Lemma post_auth_register_201_inv salt req w r w1 :
  post_auth_register salt req w = (inr r, w1) ->
  status r = 201%nat ->
  exists E P,
    Body.email (Req.body req) = Some E /\
    Body.password (Req.body req) = Some P /\
    List.find (by_email (toLowerCase E)) (users w) = None /\
    r = registered_201 /\
    w1 = {| users := users w ++ [new_user w (Body.name (Req.body req)) E P salt];
            groups := groups w; emitted := emitted w;
            next_oid := N.succ (next_oid w) |}.
Proof.
  run_handler.
  destruct (Body.email (Req.body req)) as [E|]; simpl.
  2:{ intros [= <- <-]. discriminate. }
  destruct (List.find _ (users w)) as [u|] eqn:Hu; simpl.
  { intros [= <- <-]. discriminate. }
  destruct (Body.password (Req.body req)) as [P|]; simpl.
  2:{ intros [= <- <-]. discriminate. }
  destruct (User_validate _); simpl.
  2:{ intros [= <- <-]. discriminate. }
  rewrite (find_none_existsb _ _ Hu). simpl.
  intros [= <- <-] _. exists E, P. repeat split. exact Hu.
Qed.

(** C2 (as amended): after a registration answered 201, a login whose
    email agrees with the registered one after lowercasing (whatever the
    letter case of either) is decided by [bcrypt.compare] on the stored
    digest.  With the registered password it is answered 200 with a token,
    and the middleware accepts that token, attaching the user's id and
    lowercased email; with a password that [compare] rejects it is
    answered 400 "Invalid password"; with any password that [compare]
    accepts it is answered 200 like the registered one.  This holds right
    after the registration and after any further requests. *)
Theorem login_after_register env key salt req0 w0 w1 E P now req E' :
  JWT_SECRET env = Some key -> key <> "" ->
  Body.email (Req.body req0) = Some E ->
  Body.password (Req.body req0) = Some P ->
  post_auth_register salt req0 w0 = (inr registered_201, w1) ->
  Body.email (Req.body req) = Some E' ->
  toLowerCase E' = toLowerCase E ->
  exists u,
    u ∈ users w1 /\ User.email u = toLowerCase E /\
    User.password u = bcrypt_hash P 10 salt /\
    forall calls w2, w2 = run env calls w1 ->
      (Body.password (Req.body req) = Some P ->
         post_auth_login env now req w2
           = (inr (login_200 (login_token key u now)), w2) /\
         forall now', numeric_date now' < numeric_date now + expiresIn_1h ->
           authenticateUser env now'
             (Some ("Bearer " +:+ login_token key u now))
           = Next {| Jwt.userId := User._id u; Jwt.email := toLowerCase E;
                     Jwt.iat := numeric_date now;
                     Jwt.exp := numeric_date now + expiresIn_1h |}) /\
      (forall P', Body.password (Req.body req) = Some P' ->
         bcrypt_compare P' (bcrypt_hash P 10 salt) = false ->
         post_auth_login env now req w2
           = (inr (json_error 400 "Invalid password"), w2)) /\
      (forall P', Body.password (Req.body req) = Some P' ->
         bcrypt_compare P' (bcrypt_hash P 10 salt) = true ->
         post_auth_login env now req w2
           = (inr (login_200 (login_token key u now)), w2)).
Proof.
  intros Henv Hk HE HP Hreg HE' Hlow.
  destruct (post_auth_register_201_inv _ _ _ _ _ Hreg eq_refl)
    as (E0 & P0 & HE0 & HP0 & Hfresh & _ & ->).
  rewrite HE in HE0. injection HE0 as <-.
  rewrite HP in HP0. injection HP0 as <-.
  set (u := new_user w0 (Body.name (Req.body req0)) E P salt).
  assert (Hpw : User.password u = bcrypt_hash P 10 salt) by reflexivity.
  assert (Hmail : User.email u = toLowerCase E) by reflexivity.
  assert (Hfound1 : List.find (by_email (toLowerCase E)) (users w0 ++ [u])
                    = Some u).
  { rewrite (find_none_app _ _ _ Hfresh). simpl. unfold by_email. simpl.
    rewrite String.eqb_refl. reflexivity. }
  clear Hreg. clearbody u. exists u. cbn [users].
  split; [apply elem_of_app; right; apply list_elem_of_singleton;
          reflexivity|].
  split; [exact Hmail|]. split; [exact Hpw|].
  intros calls w2 ->.
  destruct (run_users_prefix env calls
              {| users := users w0 ++ [u]; groups := groups w0;
                 emitted := emitted w0; next_oid := N.succ (next_oid w0) |})
    as [k Hk2].
  set (w2 := run env calls _) in *. clearbody w2. cbn [users] in Hk2.
  assert (Hfound : List.find (by_email (toLowerCase E')) (users w2) = Some u).
  { rewrite Hk2, Hlow. apply find_some_app. exact Hfound1. }
  assert (Haccept : forall P', Body.password (Req.body req) = Some P' ->
            bcrypt_compare P' (bcrypt_hash P 10 salt) = true ->
            post_auth_login env now req w2
              = (inr (login_200 (login_token key u now)), w2)).
  { intros P' HPreq Hcmp.
    rewrite (post_auth_login_found _ _ _ _ _ _ _ HE' HPreq Hfound).
    rewrite Hpw, Hcmp, Henv, (jwt_sign_login _ _ _ Hk). reflexivity. }
  split; [|split].
  - intros HPreq.
    split; [apply (Haccept P HPreq), bcrypt_compare_hash|].
    intros now' Hnow.
    rewrite (authenticateUser_login_token _ _ _ _ _ Henv Hk).
    destruct (Z.leb_spec (numeric_date now + expiresIn_1h) (numeric_date now'));
      [lia|].
    unfold login_claims. rewrite Hmail. reflexivity.
  - intros P' HPreq Hcmp.
    rewrite (post_auth_login_found _ _ _ _ _ _ _ HE' HPreq Hfound).
    rewrite Hpw, Hcmp. reflexivity.
  - exact Haccept.
Qed.
End Accounts.

(** ** Groups and messages *)

Lemma find_by_group_id_eq id gs g :
  List.find (by_group_id id) gs = Some g -> Group._id g = id.
Proof.
  intros Hg. apply List.find_some in Hg as [_ Hg]. apply N.eqb_eq. exact Hg.
Qed.

Lemma find_replace_by_id g' gs g :
  List.find (by_group_id (Group._id g')) gs = Some g ->
  List.find (by_group_id (Group._id g')) (replace_by_id g' gs) = Some g'.
Proof.
  induction gs as [|a gs IH]; simpl; [discriminate|].
  unfold by_group_id at 1.
  destruct (N.eqb (Group._id a) (Group._id g')) eqn:Ha; simpl.
  - intros _. unfold by_group_id. rewrite N.eqb_refl. reflexivity.
  - intros Hg. unfold by_group_id at 1. rewrite Ha. exact (IH Hg).
Qed.

Lemma find_replace_by_id_other g' gs id :
  id <> Group._id g' ->
  List.find (by_group_id id) (replace_by_id g' gs)
    = List.find (by_group_id id) gs.
Proof.
  intros Hid. induction gs as [|a gs IH]; simpl; [reflexivity|].
  destruct (N.eqb_spec (Group._id a) (Group._id g')) as [Ha|Ha]; simpl.
  - unfold by_group_id.
    destruct (N.eqb_spec (Group._id g') id); [congruence|].
    destruct (N.eqb_spec (Group._id a) id); [congruence|]. reflexivity.
  - rewrite IH. reflexivity.
Qed.

Lemma length_replace_by_id g' gs :
  length (replace_by_id g' gs) = length gs.
Proof.
  induction gs as [|a gs IH]; simpl; [reflexivity|].
  destruct (N.eqb _ _); simpl; [|rewrite IH]; reflexivity.
Qed.

Section Groups.
Context `{JsStringLaws} `{BcryptLaws} `{JwtCodecLaws} `{ObjectIdCast}.

(** The message that [POST /api/groups/:id/message] builds. *)
Lemma post_groups_message_found env now req w user id group :
  authenticateUser env now (Req.authorization req) = Next user ->
  castObjectId (Req.id req) = Some id ->
  List.find (by_group_id id) (groups w) = Some group ->
  post_groups_message env now req w =
    (inr (message_sent_200 (new_message user req now)),
     {| users := users w;
        groups := replace_by_id (append_message group (new_message user req now))
                                (groups w);
        emitted := emitted w ++ [{| room := id; event := "newMessage";
                                    data := new_message user req now |}];
        next_oid := next_oid w |}).
Proof.
  intros Hauth Hcast Hfind.
  pose proof (find_by_group_id_eq _ _ _ Hfind) as Hid.
  run_handler. rewrite Hauth, Hcast. simpl. rewrite Hfind. simpl.
  rewrite <- Hid. reflexivity.
Qed.

(** An id that is the string form of no ObjectId: [findById] throws and
    the [catch] answers. *)
Lemma post_groups_message_cast_error env now req w user :
  authenticateUser env now (Req.authorization req) = Next user ->
  castObjectId (Req.id req) = None ->
  post_groups_message env now req w
    = (inr (json_error 500 "Error sending message"), w).
Proof.
  intros Hauth Hcast. run_handler. rewrite Hauth, Hcast. reflexivity.
Qed.

Lemma post_groups_message_not_found env now req w user id :
  authenticateUser env now (Req.authorization req) = Next user ->
  castObjectId (Req.id req) = Some id ->
  List.find (by_group_id id) (groups w) = None ->
  post_groups_message env now req w
    = (inr (json_error 404 "Group not found"), w).
Proof.
  intros Hauth Hcast Hfind. run_handler. rewrite Hauth, Hcast. simpl.
  rewrite Hfind. reflexivity.
Qed.

Lemma find_append_message id gs group m :
  List.find (by_group_id id) gs = Some group ->
  List.find (by_group_id id) (replace_by_id (append_message group m) gs)
    = Some (append_message group m).
Proof.
  intros Hfind. pose proof (find_by_group_id_eq _ _ _ Hfind) as Hid.
  rewrite <- Hid at 1.
  change (Group._id group) with (Group._id (append_message group m)) at 1.
  eapply find_replace_by_id. simpl. rewrite Hid. exact Hfind.
Qed.

(** C10: an authenticated [POST /api/groups] is answered 201 with the new
    group, whose members are the creator's email alone and whose messages
    are empty; that group is added to the collection. *)
Theorem post_groups_sole_member env now req w user :
  authenticateUser env now (Req.authorization req) = Next user ->
  exists group,
    post_groups env now req w =
      (inr (group_created_201 group),
       {| users := users w; groups := groups w ++ [group];
          emitted := emitted w; next_oid := N.succ (next_oid w) |}) /\
    Group.name group = Body.name (Req.body req) /\
    Group.members group = [Jwt.email user] /\
    Group.messages group = [].
Proof.
  intros Hauth. eexists. run_handler. rewrite Hauth.
  split; [reflexivity|]. repeat split.
Qed.

(** C5: an authenticated [GET /api/groups] is answered 200 with the stored
    groups whose members contain the caller's email, each of them and no
    other, in collection order; the store is not changed. *)
Theorem get_groups_exactly_member_groups env now req w user :
  authenticateUser env now (Req.authorization req) = Next user ->
  exists found,
    get_groups env now req w =
      (inr {| status := 200; body := JArr (map group_json found) |}, w) /\
    (forall g, g ∈ found <->
               g ∈ groups w /\ Jwt.email user ∈ Group.members g) /\
    found `sublist_of` groups w.
Proof.
  intros Hauth.
  exists (filter (fun g => Jwt.email user ∈ Group.members g) (groups w)).
  run_handler. rewrite Hauth. split; [reflexivity|]. split.
  - intros g. rewrite list_elem_of_filter. tauto.
  - apply sublist_filter.
Qed.

(** C6: for an existing group and any authenticated caller, member or
    not, [POST /api/groups/:id/message] is answered 200 with the message
    {caller's email, text, now}; the stored group gets that message as its
    new last message and is otherwise as before, the other groups and the
    users are as before, and the message is emitted once to the group's
    room.  The group is the stored one whose [_id] the path segment [:id]
    is the string form of. *)
Theorem post_groups_message_appends env now req w user id group :
  authenticateUser env now (Req.authorization req) = Next user ->
  castObjectId (Req.id req) = Some id ->
  List.find (by_group_id id) (groups w) = Some group ->
  exists message w',
    message = {| Message.sender := Jwt.email user;
                 Message.text := Body.text (Req.body req);
                 Message.timestamp := now |} /\
    post_groups_message env now req w = (inr (message_sent_200 message), w') /\
    List.find (by_group_id id) (groups w')
      = Some (append_message group message) /\
    list.last (Group.messages (append_message group message)) = Some message /\
    (forall id', id' <> id ->
       List.find (by_group_id id') (groups w')
         = List.find (by_group_id id') (groups w)) /\
    length (groups w') = length (groups w) /\
    users w' = users w /\
    emitted w' = emitted w ++ [{| room := id; event := "newMessage";
                                  data := message |}].
Proof.
  intros Hauth Hcast Hfind.
  pose proof (find_by_group_id_eq _ _ _ Hfind) as Hid.
  eexists _, _. split; [reflexivity|].
  split; [apply (post_groups_message_found _ _ _ _ _ _ _ Hauth Hcast Hfind)|].
  cbn [users groups emitted]. repeat split.
  - apply find_append_message. exact Hfind.
  - apply last_snoc.
  - intros id' Hne. apply find_replace_by_id_other. simpl. congruence.
  - apply length_replace_by_id.
Qed.

(** C7 (as amended): [POST /api/groups/:id/message] always answers.  To an
    authenticated caller it answers 404 "Group not found" when [:id] is the
    string form of an ObjectId that no stored group has, and 500 "Error
    sending message" when [:id] is the string form of no ObjectId (the
    cast error of [findById] is caught).  In both cases users, groups and
    emissions are exactly as they were.  In general, whenever the list of
    emissions changes the answer is 200, the group exists and the stored
    group already holds the emitted message. *)
Theorem post_groups_message_unknown_group env now req w :
  exists r w',
    post_groups_message env now req w = (inr r, w') /\
    (forall id,
       castObjectId (Req.id req) = Some id ->
       List.find (by_group_id id) (groups w) = None ->
       w' = w /\
       forall user,
         authenticateUser env now (Req.authorization req) = Next user ->
         r = json_error 404 "Group not found") /\
    (castObjectId (Req.id req) = None ->
       w' = w /\
       forall user,
         authenticateUser env now (Req.authorization req) = Next user ->
         r = json_error 500 "Error sending message") /\
    (emitted w' <> emitted w ->
       status r = 200%nat /\
       exists id group m,
         castObjectId (Req.id req) = Some id /\
         List.find (by_group_id id) (groups w) = Some group /\
         List.find (by_group_id id) (groups w')
           = Some (append_message group m) /\
         emitted w' = emitted w ++ [{| room := id;
                                       event := "newMessage"; data := m |}]).
Proof.
  destruct (authenticateUser env now (Req.authorization req)) as [rej|user]
    eqn:Hauth.
  { exists rej, w. run_handler. rewrite Hauth.
    split; [reflexivity|].
    split; [intros id _ _; split; [reflexivity|intros u [=]]|].
    split; [intros _; split; [reflexivity|intros u [=]]|congruence]. }
  destruct (castObjectId (Req.id req)) as [id|] eqn:Hcast.
  2:{ eexists _, _.
      split; [apply (post_groups_message_cast_error _ _ _ _ _ Hauth Hcast)|].
      split; [intros id [=]|].
      split; [intros _; split; reflexivity|congruence]. }
  destruct (List.find (by_group_id id) (groups w)) as [group|] eqn:Hfind.
  - eexists _, _.
    split; [apply (post_groups_message_found _ _ _ _ _ _ _ Hauth Hcast Hfind)|].
    split; [intros id' [= <-]; congruence|].
    split; [discriminate|].
    intros _. split; [reflexivity|].
    exists id, group, (new_message user req now). cbn [groups emitted].
    split; [reflexivity|]. split; [exact Hfind|]. split; [|reflexivity].
    apply find_append_message. exact Hfind.
  - eexists _, _.
    split; [apply (post_groups_message_not_found _ _ _ _ _ _ Hauth Hcast Hfind)|].
    split; [intros id' _ _; split; reflexivity|].
    split; [discriminate|congruence].
Qed.
End Groups.

(** ** Passwords and missing fields *)

Section Passwords.
Context `{JsStringLaws} `{BcryptLaws} `{JwtCodecLaws} `{ObjectIdCast}.

Lemma authenticateUser_rejections env now authorization rej :
  authenticateUser env now authorization = Rejected rej ->
  rej = json_error 401 "Unauthorized. No token provided." \/
  rej = json_error 403 "Invalid or expired token".
Proof.
  unfold authenticateUser, reject_401, reject_403.
  destruct (bearer_token authorization) as [tok|]; [|intros [= <-]; auto].
  destruct (String.eqb tok ""); [intros [= <-]; auto|].
  destruct (jwt_verify _ _ _); [intros [= <-]; auto|discriminate].
Qed.

Lemma select_without_password u :
  JObj (select_without "password" (user_fields u)) = body (user_200 u).
Proof. destruct u as [i [nm|] e p]; reflexivity. Qed.

Lemma user_200_no_password u : json_get "password" (body (user_200 u)) = None.
Proof. destruct u as [i [nm|] e p]; reflexivity. Qed.

(** The store and the answer of the registration handler do not depend on
    the console, and the console only grows. *)
Lemma post_auth_register_logged_run salt req w out :
  exists lines,
    post_auth_register_logged salt req (w, out)
    = (fst (post_auth_register salt req w),
       (snd (post_auth_register salt req w), out ++ lines)).
Proof.
  run_logged.
  destruct (Body.email (Req.body req)) as [E|]; simpl; [|eauto].
  destruct (List.find _ (users w)) as [u|]; simpl.
  { eexists. rewrite <- app_assoc. reflexivity. }
  destruct (Body.password (Req.body req)) as [P|]; simpl.
  2:{ eexists. rewrite <- app_assoc. reflexivity. }
  destruct (User_validate _); simpl.
  2:{ eexists. rewrite <- app_assoc. reflexivity. }
  destruct (existsb _ _); simpl; eexists; rewrite <- app_assoc; reflexivity.
Qed.

(** A registration that gives an email writes the request body as it
    came, [password] included, to the console before anything else. *)
Lemma post_auth_register_logs_body salt req w out E :
  Body.email (Req.body req) = Some E ->
  exists more,
    snd (snd (post_auth_register_logged salt req (w, out)))
    = out ++ {| label := "📩 Registration Request Received:";
                printed := PJson (body_json (Req.body req)) |} :: more.
Proof.
  intros HE. run_logged. rewrite HE. simpl.
  destruct (List.find _ (users w)) as [u|]; simpl.
  { eexists. rewrite <- app_assoc. reflexivity. }
  destruct (Body.password (Req.body req)) as [P|]; simpl.
  2:{ eexists. rewrite <- app_assoc. reflexivity. }
  destruct (User_validate _); simpl.
  2:{ eexists. rewrite <- app_assoc. reflexivity. }
  destruct (existsb _ _); simpl; eexists; rewrite <- app_assoc; reflexivity.
Qed.

(** The login handler has the same store and answer with and without the
    console, and each line it writes shows the lowercased email or the
    caught error, never the request body. *)
Lemma post_auth_login_logged_run env now req w out :
  exists lines,
    post_auth_login_logged env now req (w, out)
    = (fst (post_auth_login env now req w),
       (snd (post_auth_login env now req w), out ++ lines)) /\
    forall mail, Body.email (Req.body req) = Some mail ->
      Forall (fun l => printed l = PJson (JStr (toLowerCase mail)) \/
                       exists e, printed l = PError e) lines.
Proof.
  run_logged.
  destruct (Body.email (Req.body req)) as [E|]; simpl.
  2:{ exists []. rewrite app_nil_r. split; [reflexivity|discriminate]. }
  destruct (List.find _ (users w)) as [u|]; simpl.
  2:{ eexists. rewrite <- app_assoc. split; [reflexivity|].
      intros mail [= <-]. console_lines. }
  destruct (Body.password (Req.body req)) as [P|]; simpl.
  2:{ eexists. rewrite <- app_assoc. split; [reflexivity|].
      intros mail [= <-]. console_lines. }
  destruct (bcrypt_compare P (User.password u)); simpl.
  2:{ eexists. rewrite <- app_assoc. split; [reflexivity|].
      intros mail [= <-]. console_lines. }
  destruct (jwt_sign _ _ _ _ _); simpl.
  - eexists. rewrite <- !app_assoc. split; [reflexivity|].
    intros mail [= <-]. console_lines.
  - eexists. rewrite <- app_assoc. split; [reflexivity|].
    intros mail [= <-]. console_lines.
Qed.

Lemma body_json_password b :
  json_get "password" (body_json b) = JStr <$> Body.password b.
Proof. destruct b as [[nm|] [em|] [pw|] [tx|]]; reflexivity. Qed.

(** The part of C8 that holds of the store and of the answers.  A
    registration touches neither groups nor emissions, and either leaves
    the users as they are or adds exactly one record: a fresh [_id], the
    submitted name, the lowercased email, and as [password] the bcrypt
    digest of the submitted password, which is not the password.
    [GET /api/auth/user] always answers with a body that has no [password]
    field: for an authenticated caller whose record is found, the record's
    [_id], [name] and [email] only. *)
Theorem password_hashed_and_not_returned :
  (forall salt req w,
     exists r w',
       post_auth_register salt req w = (inr r, w') /\
       groups w' = groups w /\ emitted w' = emitted w /\
       (users w' = users w \/
        exists E pw,
          Body.email (Req.body req) = Some E /\
          Body.password (Req.body req) = Some pw /\
          users w' = users w ++
            [{| User._id := next_oid w;
                User.name := Body.name (Req.body req);
                User.email := toLowerCase E;
                User.password := bcrypt_hash pw 10 salt |}] /\
          bcrypt_hash pw 10 salt <> pw)) /\
  (forall env now req w,
     exists r,
       get_auth_user env now req w = (inr r, w) /\
       json_get "password" (body r) = None /\
       forall user u,
         authenticateUser env now (Req.authorization req) = Next user ->
         List.find (by_user_id (Jwt.userId user)) (users w) = Some u ->
         r = user_200 u).
Proof.
  split.
  - intros salt req w.
    destruct (post_auth_register_total salt req w)
      as (r & w' & Hrun & Hg & He & Hu).
    exists r, w'. split; [exact Hrun|]. split; [exact Hg|].
    split; [exact He|].
    destruct Hu as [Hu|(E & P & HE & HP & Hu)]; [left; exact Hu|right].
    exists E, P. split; [exact HE|]. split; [exact HP|].
    split; [exact Hu|apply bcrypt_hash_not_plain].
  - intros env now req w. run_handler.
    destruct (authenticateUser env now (Req.authorization req)) as [rej|user]
      eqn:Hauth.
    + exists rej. split; [reflexivity|]. split; [|discriminate].
      destruct (authenticateUser_rejections _ _ _ _ Hauth) as [-> | ->];
        reflexivity.
    + destruct (List.find _ (users w)) as [u|] eqn:Hu; simpl.
      * exists (user_200 u).
        split; [destruct u as [i [nm|] e p]; reflexivity|].
        split; [apply user_200_no_password|].
        intros user' u' [= <-]. rewrite Hu.
        intros [= <-]. reflexivity.
      * exists (json_error 404 "User not found").
        split; [reflexivity|]. split; [reflexivity|].
        intros user' u' [= <-]. rewrite Hu. discriminate.
Qed.

(** C9 (as amended): a registration that lacks [name], [email] or
    [password] creates no user and is answered 500 "Error registering
    user", or 400 "Email already in use" when the email it did give is
    taken; a login that gives an email but no password is answered 500
    "Server error during login" when the user exists and 400 "User not
    found" when it does not.  On every route, an answer 400 means one of
    three things: a registration whose email is taken, a login for an
    email that no user has, or a login with a password that
    [bcrypt.compare] rejects. *)
Theorem missing_field_answers :
  (forall salt req w,
     Body.name (Req.body req) = None \/ Body.email (Req.body req) = None \/
     Body.password (Req.body req) = None ->
     exists r w',
       post_auth_register salt req w = (inr r, w') /\
       users w' = users w /\ groups w' = groups w /\
       r = match Body.email (Req.body req) with
           | Some E =>
               match List.find (by_email (toLowerCase E)) (users w) with
               | Some _ => json_error 400 "Email already in use"
               | None => json_error 500 "Error registering user"
               end
           | None => json_error 500 "Error registering user"
           end) /\
  (forall env now req w E,
     Body.email (Req.body req) = Some E ->
     Body.password (Req.body req) = None ->
     post_auth_login env now req w =
       (inr match List.find (by_email (toLowerCase E)) (users w) with
            | Some _ => json_error 500 "Server error during login"
            | None => json_error 400 "User not found"
            end, w)) /\
  (forall env c w r w',
     serve env c w = (inr r, w') -> status r = 400%nat ->
     exists E,
       Body.email (Req.body (request c)) = Some E /\
       ((exists salt u,
           route c = PostAuthRegister salt /\
           List.find (by_email (toLowerCase E)) (users w) = Some u /\
           r = json_error 400 "Email already in use") \/
        (route c = PostAuthLogin /\
         List.find (by_email (toLowerCase E)) (users w) = None /\
         r = json_error 400 "User not found") \/
        (exists u P,
           route c = PostAuthLogin /\
           List.find (by_email (toLowerCase E)) (users w) = Some u /\
           Body.password (Req.body (request c)) = Some P /\
           bcrypt_compare P (User.password u) = false /\
           r = json_error 400 "Invalid password"))).
Proof.
  split; [|split].
  - intros salt req w Hmiss. run_handler.
    destruct (Body.email (Req.body req)) as [E|]; simpl; [|eauto 10].
    destruct (List.find _ (users w)) as [u|] eqn:Hu; simpl; [eauto 10|].
    destruct (Body.password (Req.body req)) as [P|]; simpl; [|eauto 10].
    destruct (Body.name (Req.body req)) as [nm|]; simpl.
    + destruct Hmiss as [|[|]]; discriminate.
    + unfold User_validate. simpl. eauto 10.
  - intros env now req w E HE HP. run_handler. rewrite HE, HP. simpl.
    destruct (List.find _ (users w)); reflexivity.
  - intros env c w r w'. unfold serve.
    destruct (route c) as [salt| | | | |].
    + run_handler.
      destruct (Body.email (Req.body (request c))) as [E|]; simpl.
      2:{ intros [= <- <-]. discriminate. }
      destruct (List.find _ (users w)) as [u|] eqn:Hu; simpl.
      { intros [= <- <-] _. exists E. split; [reflexivity|]. left. eauto. }
      destruct (Body.password (Req.body (request c))) as [P|]; simpl.
      2:{ intros [= <- <-]. discriminate. }
      destruct (User_validate _); simpl.
      2:{ intros [= <- <-]. discriminate. }
      destruct (existsb _ _); simpl; intros [= <- <-]; discriminate.
    + run_handler.
      destruct (Body.email (Req.body (request c))) as [E|]; simpl;
        [|discriminate].
      destruct (List.find _ (users w)) as [u|] eqn:Hu; simpl.
      2:{ intros [= <- <-] _. exists E. split; [reflexivity|].
          right. left. auto. }
      destruct (Body.password (Req.body (request c))) as [P|]; simpl.
      2:{ intros [= <- <-]. discriminate. }
      destruct (bcrypt_compare P (User.password u)) eqn:Hcmp; simpl.
      2:{ intros [= <- <-] _. exists E. split; [reflexivity|].
          right. right. exists u, P. auto. }
      destruct (jwt_sign _ _ _ _ _); simpl; intros [= <- <-]; discriminate.
    + run_handler.
      destruct (authenticateUser _ _ _) as [rej|user] eqn:Hauth.
      { intros [= <- <-].
        destruct (authenticateUser_rejections _ _ _ _ Hauth) as [-> | ->];
          discriminate. }
      destruct (List.find _ (users w)); intros [= <- <-]; discriminate.
    + run_handler.
      destruct (authenticateUser _ _ _) as [rej|user] eqn:Hauth.
      { intros [= <- <-].
        destruct (authenticateUser_rejections _ _ _ _ Hauth) as [-> | ->];
          discriminate. }
      intros [= <- <-]. discriminate.
    + run_handler.
      destruct (authenticateUser _ _ _) as [rej|user] eqn:Hauth.
      { intros [= <- <-].
        destruct (authenticateUser_rejections _ _ _ _ Hauth) as [-> | ->];
          discriminate. }
      intros [= <- <-]. discriminate.
    + run_handler.
      destruct (authenticateUser _ _ _) as [rej|user] eqn:Hauth.
      { intros [= <- <-].
        destruct (authenticateUser_rejections _ _ _ _ Hauth) as [-> | ->];
          discriminate. }
      destruct (castObjectId _); simpl.
      2:{ intros [= <- <-]. discriminate. }
      destruct (List.find _ (groups w)); intros [= <- <-]; discriminate.
Qed.

(** A login without [email] throws before the [try]: no answer is sent. *)
Lemma post_auth_login_missing_email env now req w :
  Body.email (Req.body req) = None ->
  post_auth_login env now req w = (inl TypeError, w).
Proof. intros HE. run_handler. rewrite HE. reflexivity. Qed.
End Passwords.

(** ** The store over any sequence of requests *)

Lemma find_by_email_none mail us :
  List.find (by_email mail) us = None <-> mail ∉ map User.email us.
Proof.
  induction us as [|u us IH]; simpl.
  - split; [intros _; apply not_elem_of_nil|reflexivity].
  - unfold by_email at 1. rewrite not_elem_of_cons.
    destruct (String.eqb_spec (User.email u) mail) as [E|E].
    + split; [discriminate|intros [Hne _]; congruence].
    + rewrite IH. split; [intros Hn; split; [congruence|exact Hn]|tauto].
Qed.

Lemma find_by_user_id_NoDup id us u :
  NoDup (map User._id us) -> u ∈ us -> User._id u = id ->
  List.find (by_user_id id) us = Some u.
Proof.
  induction us as [|v us IH]; simpl; intros Hnd Hin Hid.
  - apply elem_of_nil in Hin. destruct Hin.
  - apply list.NoDup_cons in Hnd as [Hv Hnd].
    unfold by_user_id at 1.
    apply elem_of_cons in Hin as [->|Hin].
    + rewrite Hid, N.eqb_refl. reflexivity.
    + destruct (N.eqb_spec (User._id v) id) as [E|E]; [|auto].
      exfalso. apply Hv. rewrite E, <- Hid.
      apply list_elem_of_fmap. exists u. auto.
Qed.

Lemma map_id_replace_by_id g' gs g :
  List.find (by_group_id (Group._id g')) gs = Some g ->
  map Group._id (replace_by_id g' gs) = map Group._id gs.
Proof.
  induction gs as [|a gs IH]; simpl; [reflexivity|].
  unfold by_group_id at 1.
  destruct (N.eqb_spec (Group._id a) (Group._id g')) as [E|E]; simpl.
  - intros _. rewrite E. reflexivity.
  - intros Hg. rewrite (IH Hg). reflexivity.
Qed.

Lemma Forall_replace_by_id (P : Group.t -> Prop) g' gs :
  P g' -> Forall P gs -> Forall P (replace_by_id g' gs).
Proof.
  intros Hg'. induction 1 as [|a gs Ha Hgs IH]; simpl; [constructor|].
  destruct (N.eqb _ _); constructor; assumption.
Qed.

Lemma group_grows_refl g : group_grows g g.
Proof. repeat split; reflexivity. Qed.

(** Replacing a stored group by the same group with one more message moves
    no group and changes no other group. *)
Lemma lookup_replace_by_id group m gs i g :
  List.find (by_group_id (Group._id group)) gs = Some group ->
  gs !! i = Some g ->
  exists g', replace_by_id (append_message group m) gs !! i = Some g' /\
             group_grows g g'.
Proof.
  pose proof group_grows_refl as Hrefl.
  revert i. induction gs as [|a gs IH]; intros i; simpl; [discriminate|].
  unfold by_group_id at 1.
  destruct (N.eqb_spec (Group._id a) (Group._id group)) as [E|E]; simpl.
  - intros [= ->]. destruct i as [|i]; simpl.
    + intros [= <-]. eexists. split; [reflexivity|].
      repeat split. simpl. apply prefix_app_r. reflexivity.
    + intros Hg. eauto.
  - intros Hfind. destruct i as [|i]; simpl.
    + intros [= <-]. eauto.
    + apply IH. exact Hfind.
Qed.

Section StoreHistory.
Context `{JsStringLaws} `{BcryptLaws} `{JwtCodecLaws} `{ObjectIdCast}.

(** Each request changes the store in one of the five ways of [Change]. *)
Lemma serve_change env c w : Change w (snd (serve env c w)).
Proof.
  unfold serve. destruct (route c) as [salt| | | | |].
  - run_handler.
    destruct (Body.email (Req.body (request c))) as [E|]; simpl;
      [|apply change_none].
    destruct (List.find _ (users w)) as [u|] eqn:Hu; simpl;
      [apply change_none|].
    destruct (Body.password (Req.body (request c))) as [P|]; simpl;
      [|apply change_none].
    destruct (User_validate _) eqn:Hval; simpl; [|apply change_oid].
    rewrite (find_none_existsb _ _ Hu). simpl.
    apply (change_user w (Body.name (Req.body (request c))) E P salt Hu Hval).
  - run_handler.
    destruct (Body.email (Req.body (request c))); simpl; [|apply change_none].
    destruct (List.find _ (users w)); simpl; [|apply change_none].
    destruct (Body.password (Req.body (request c))); simpl;
      [|apply change_none].
    destruct (bcrypt_compare _ _); simpl; [|apply change_none].
    destruct (jwt_sign _ _ _ _ _); apply change_none.
  - run_handler. destruct (authenticateUser _ _ _); [apply change_none|].
    destruct (List.find _ (users w)); apply change_none.
  - run_handler. destruct (authenticateUser _ _ _); [apply change_none|].
    apply change_group.
  - run_handler. destruct (authenticateUser _ _ _); apply change_none.
  - run_handler. destruct (authenticateUser _ _ _); [apply change_none|].
    destruct (castObjectId _); simpl; [|apply change_none].
    destruct (List.find _ (groups w)) as [group|] eqn:Hfind; simpl;
      [|apply change_none].
    pose proof (find_by_group_id_eq _ _ _ Hfind) as Hid.
    rewrite <- Hid in Hfind.
    apply (change_message w group _ Hfind).
Qed.

(** A condition that every change keeps holds after any requests. *)
Lemma run_preserves (P : World -> Prop) env calls w :
  (forall a b, P a -> Change a b -> P b) -> P w -> P (run env calls w).
Proof.
  intros Hstep. revert w.
  induction calls as [|c rest IH]; intros w Hw; simpl; [exact Hw|].
  apply IH. eapply Hstep; [exact Hw|apply serve_change].
Qed.

(** A relation to the first store that every change extends holds between
    the first store and the store after any requests. *)
Lemma run_related (R : World -> World -> Prop) env calls w :
  (forall a, R a a) -> (forall a b c, R a b -> Change b c -> R a c) ->
  R w (run env calls w).
Proof.
  intros Hrefl Hstep.
  enough (forall w', R w w' -> R w (run env calls w')) by auto.
  induction calls as [|c rest IH]; intros w' Hw'; simpl; [exact Hw'|].
  apply IH. eapply Hstep; [exact Hw'|apply serve_change].
Qed.

Lemma users_ok_change a b : users_ok a -> Change a b -> users_ok b.
Proof.
  intros [Hok Hnd] Hch. destruct Hch as [| |nm E P salt Hfree Hval| |];
    try (split; assumption).
  split; simpl.
  - apply Forall_app. split; [exact Hok|].
    apply Forall_singleton. split; [apply toLowerCase_idemp|exact Hval].
  - rewrite fmap_app. apply list.NoDup_app. split; [exact Hnd|]. split.
    + intros x Hx Hin. apply list_elem_of_singleton in Hin. subst x.
      apply find_by_email_none in Hfree. exact (Hfree Hx).
    + apply NoDup_singleton.
Qed.

Lemma Forall_lt_succ {A} (f : A -> N) n l :
  Forall (fun x => (f x < n)%N) l -> Forall (fun x => (f x < N.succ n)%N) l.
Proof. apply Forall_impl. intros x Hx. lia. Qed.

Lemma NoDup_snoc_fresh {A} (f : A -> N) n l x :
  Forall (fun y => (f y < n)%N) l -> f x = n ->
  NoDup (map f l) -> NoDup (map f (l ++ [x])).
Proof.
  intros Hlt Hx Hnd. rewrite fmap_app. apply list.NoDup_app.
  split; [exact Hnd|]. split; [|apply NoDup_singleton].
  intros y Hy Hin. apply list_elem_of_singleton in Hin. subst y.
  apply list_elem_of_fmap in Hy as (z & Hz & Hin).
  rewrite list.Forall_forall in Hlt. specialize (Hlt z Hin). simpl in Hz. lia.
Qed.

Lemma ids_fresh_change a b : ids_fresh a -> Change a b -> ids_fresh b.
Proof.
  intros (Hu & Hun & Hg & Hgn) Hch.
  destruct Hch as [| |nm E P salt Hfree Hval|nm mail|group m Hfind];
    unfold ids_fresh; simpl.
  - auto.
  - auto using Forall_lt_succ.
  - repeat split; auto using Forall_lt_succ.
    + apply Forall_app. split; [auto using Forall_lt_succ|].
      apply Forall_singleton. simpl. lia.
    + eapply NoDup_snoc_fresh; [exact Hu|reflexivity|exact Hun].
  - repeat split; auto using Forall_lt_succ.
    + apply Forall_app. split; [auto using Forall_lt_succ|].
      apply Forall_singleton. simpl. lia.
    + eapply NoDup_snoc_fresh; [exact Hg|reflexivity|exact Hgn].
  - repeat split; auto.
    + apply Forall_replace_by_id; [|exact Hg]. simpl.
      apply List.find_some in Hfind as [Hin _]. apply list_elem_of_In in Hin.
      rewrite list.Forall_forall in Hg. exact (Hg _ Hin).
    + rewrite (map_id_replace_by_id (append_message group m) _ _ Hfind).
      exact Hgn.
Qed.

Lemma group_grows_trans g1 g2 g3 :
  group_grows g1 g2 -> group_grows g2 g3 -> group_grows g1 g3.
Proof.
  intros (A1 & A2 & A3 & A4) (B1 & B2 & B3 & B4).
  repeat split; try congruence. etransitivity; eassumption.
Qed.

Lemma groups_grow_change a b : Change a b -> groups_grow a b.
Proof.
  pose proof group_grows_refl as Hrefl.
  intros Hch i g Hg.
  destruct Hch as [| |nm E P salt Hfree Hval|nm mail|group m Hfind]; simpl;
    eauto.
  - exists g. split; [apply lookup_app_l_Some; exact Hg|apply Hrefl].
  - eapply lookup_replace_by_id; eassumption.
Qed.

Lemma run_groups_grow env calls w : groups_grow w (run env calls w).
Proof.
  apply (run_related groups_grow).
  - intros a i g Hg. exists g. split; [exact Hg|apply group_grows_refl].
  - intros a b c Hab Hbc i g Hg.
    destruct (Hab i g Hg) as (g' & Hg' & Hgg').
    destruct (groups_grow_change _ _ Hbc i g' Hg') as (g'' & Hg'' & Hgg'').
    exists g''. split; [exact Hg''|eapply group_grows_trans; eassumption].
Qed.

Lemma run_emitted_prefix env calls w :
  emitted w `prefix_of` emitted (run env calls w).
Proof.
  apply (run_related (fun a b => emitted a `prefix_of` emitted b)).
  - reflexivity.
  - intros a b c Hab Hch. etransitivity; [exact Hab|].
    destruct Hch; simpl; try reflexivity.
    apply prefix_app_r. reflexivity.
Qed.
End StoreHistory.

(** ** Further properties of the routes *)

Lemma find_some_lookup {A} (f : A -> bool) l x :
  List.find f l = Some x -> exists i, l !! i = Some x.
Proof.
  intros Hx. apply List.find_some in Hx as [Hin _].
  apply list_elem_of_In, list_elem_of_lookup in Hin. exact Hin.
Qed.

Lemma NoDup_fmap_eq {A} (f : A -> N) l x y :
  NoDup (map f l) -> x ∈ l -> y ∈ l -> f x = f y -> x = y.
Proof.
  induction l as [|a l IH]; simpl; intros Hnd Hx Hy Hf.
  - apply elem_of_nil in Hx. destruct Hx.
  - apply list.NoDup_cons in Hnd as [Ha Hnd].
    apply elem_of_cons in Hx as [->|Hx]; apply elem_of_cons in Hy as [->|Hy];
      auto.
    + exfalso. apply Ha. rewrite Hf. apply list_elem_of_fmap. eauto.
    + exfalso. apply Ha. rewrite <- Hf. apply list_elem_of_fmap. eauto.
Qed.

Section RouteFacts.
Context `{JsStringLaws} `{BcryptLaws} `{JwtCodecLaws} `{ObjectIdCast}.

Lemma post_groups_run env now req w user :
  authenticateUser env now (Req.authorization req) = Next user ->
  post_groups env now req w =
    (inr (group_created_201
            {| Group._id := next_oid w; Group.name := Body.name (Req.body req);
               Group.members := [Jwt.email user]; Group.messages := [] |}),
     {| users := users w;
        groups := groups w ++ [{| Group._id := next_oid w;
                                  Group.name := Body.name (Req.body req);
                                  Group.members := [Jwt.email user];
                                  Group.messages := [] |}];
        emitted := emitted w; next_oid := N.succ (next_oid w) |}).
Proof. intros Hauth. run_handler. rewrite Hauth. reflexivity. Qed.

Lemma get_groups_run env now req w user :
  authenticateUser env now (Req.authorization req) = Next user ->
  get_groups env now req w =
    (inr {| status := 200;
            body := JArr (map group_json
                            (filter (fun g => Jwt.email user ∈ Group.members g)
                                    (groups w))) |}, w).
Proof. intros Hauth. run_handler. rewrite Hauth. reflexivity. Qed.

Lemma get_auth_user_found env now req w user u :
  authenticateUser env now (Req.authorization req) = Next user ->
  List.find (by_user_id (Jwt.userId user)) (users w) = Some u ->
  get_auth_user env now req w = (inr (user_200 u), w).
Proof.
  intros Hauth Hu. run_handler. rewrite Hauth, Hu.
  destruct u as [i [nm|] e p]; reflexivity.
Qed.

(** No protected handler runs without a token that verifies: the four
    protected routes answer the middleware's 401 or 403 and leave users,
    groups and emissions as they were. *)
Theorem protected_routes_need_token env c w rej :
  route c = GetAuthUser \/ route c = PostGroups \/ route c = GetGroups \/
  route c = PostGroupsMessage ->
  authenticateUser env (now_ms c) (Req.authorization (request c))
    = Rejected rej ->
  serve env c w = (inr rej, w) /\
  (rej = json_error 401 "Unauthorized. No token provided." \/
   rej = json_error 403 "Invalid or expired token").
Proof.
  intros Hroute Hauth.
  split; [|eapply authenticateUser_rejections; exact Hauth].
  unfold serve.
  destruct Hroute as [->|[->|[->| ->]]]; run_handler; rewrite Hauth;
    reflexivity.
Qed.

(** Login and the two GET routes only read: whatever they answer, and also
    when login throws, the store afterwards is the store before. *)
Theorem login_and_reads_change_nothing env c w :
  route c = PostAuthLogin \/ route c = GetAuthUser \/ route c = GetGroups ->
  snd (serve env c w) = w.
Proof.
  unfold serve. intros [->|[->| ->]]; run_handler.
  - destruct (Body.email (Req.body (request c))); simpl; [|reflexivity].
    destruct (List.find _ (users w)); simpl; [|reflexivity].
    destruct (Body.password (Req.body (request c))); simpl; [|reflexivity].
    destruct (bcrypt_compare _ _); simpl; [|reflexivity].
    destruct (jwt_sign _ _ _ _ _); reflexivity.
  - destruct (authenticateUser _ _ _); [reflexivity|].
    destruct (List.find _ (users w)); reflexivity.
  - destruct (authenticateUser _ _ _); reflexivity.
Qed.

(** A login is answered 200 only when a stored user has the lowercased
    email and [bcrypt.compare] accepts the submitted password against that
    user's stored digest; the token then carries that user's id and email. *)
Theorem login_requires_matching_password env now req w r w' :
  post_auth_login env now req w = (inr r, w') ->
  status r = 200%nat ->
  exists E P u key,
    Body.email (Req.body req) = Some E /\
    Body.password (Req.body req) = Some P /\
    List.find (by_email (toLowerCase E)) (users w) = Some u /\
    bcrypt_compare P (User.password u) = true /\
    JWT_SECRET env = Some key /\ key <> "" /\
    r = login_200 (login_token key u now) /\
    jwt_verify (login_token key u now) (Some key) now
      = inr {| Jwt.userId := User._id u; Jwt.email := User.email u;
               Jwt.iat := numeric_date now;
               Jwt.exp := numeric_date now + expiresIn_1h |}.
Proof.
  run_handler.
  destruct (Body.email (Req.body req)) as [E|]; simpl; [|discriminate].
  destruct (List.find _ (users w)) as [u|] eqn:Hu; simpl.
  2:{ intros [= <- <-]. discriminate. }
  destruct (Body.password (Req.body req)) as [P|]; simpl.
  2:{ intros [= <- <-]. discriminate. }
  destruct (bcrypt_compare P (User.password u)) eqn:Hcmp; simpl.
  2:{ intros [= <- <-]. discriminate. }
  unfold jwt_sign.
  destruct (JWT_SECRET env) as [key|]; simpl.
  2:{ intros [= <- <-]. discriminate. }
  destruct (String.eqb_spec key "") as [->|Hk]; simpl.
  { intros [= <- <-]. discriminate. }
  intros [= <- <-] _.
  exists E, P, u, key. repeat split; try assumption; try reflexivity.
  rewrite (jwt_verify_login_token _ _ _ _ Hk).
  destruct (Z.leb_spec (numeric_date now + expiresIn_1h) (numeric_date now));
    [unfold expiresIn_1h in *; lia|reflexivity].
Qed.

(** A registration is answered 201 exactly when it gives a non-empty name,
    a non-empty email that no stored user has after lowercasing, and a
    password. *)
Theorem register_succeeds_exactly_when salt req w :
  exists r w',
    post_auth_register salt req w = (inr r, w') /\
    (status r = 201%nat <->
     exists nm E P,
       Body.name (Req.body req) = Some nm /\ nm <> "" /\
       Body.email (Req.body req) = Some E /\ E <> "" /\
       Body.password (Req.body req) = Some P /\
       List.find (by_email (toLowerCase E)) (users w) = None).
Proof.
  destruct (Body.email (Req.body req)) as [E|] eqn:HE.
  2:{ eexists _, _. split; [run_handler; rewrite HE; reflexivity|].
      split; [discriminate|]. intros (nm & E & P & _ & _ & [=] & _). }
  destruct (List.find (by_email (toLowerCase E)) (users w)) as [u|] eqn:Hu.
  { eexists _, _.
    split; [apply (post_auth_register_duplicate _ _ _ _ _ HE Hu)|].
    split; [discriminate|].
    intros (nm & E' & P & _ & _ & [= <-] & _ & _ & Hnone). congruence. }
  destruct (Body.password (Req.body req)) as [P|] eqn:HP.
  2:{ eexists _, _.
      split; [run_handler; rewrite HE; simpl; rewrite Hu, HP; reflexivity|].
      split; [discriminate|]. intros (nm & E' & P & _ & _ & _ & _ & [=] & _). }
  destruct (required (Body.name (Req.body req))) eqn:Hname.
  - destruct (String.eqb_spec E "") as [->|HEne].
    + eexists _, _.
      split; [run_handler; rewrite HE; simpl; rewrite Hu, HP; simpl;
              unfold User_validate; simpl;
              rewrite Hname, toLowerCase_empty; reflexivity|].
      split; [discriminate|].
      intros (nm & E' & P' & _ & _ & [= <-] & Hne & _). congruence.
    + eexists _, _.
      split; [apply (post_auth_register_fresh _ _ _ _ _ HE HEne HP Hname Hu)|].
      split; [intros _|reflexivity].
      destruct (Body.name (Req.body req)) as [nm|]; [|discriminate].
      exists nm, E, P. repeat split; try assumption.
      intros ->. discriminate.
  - eexists _, _.
    split; [run_handler; rewrite HE; simpl; rewrite Hu, HP; simpl;
            unfold User_validate; simpl; rewrite Hname; reflexivity|].
    split; [discriminate|].
    intros (nm & E' & P' & Hnm & Hne & _). rewrite Hnm in Hname. simpl in Hname.
    apply String.eqb_neq in Hne. rewrite Hne in Hname. discriminate.
Qed.
End RouteFacts.

(** ** Properties over any sequence of requests *)

Section RunFacts.
Context `{JsStringLaws} `{BcryptLaws} `{JwtCodecLaws} `{ObjectIdCast}.

Lemma emit_stored_change a b e :
  emit_stored a e -> Change a b -> emit_stored b e.
Proof.
  intros (Hev & g & Hg & Hid & Hdata) Hch. split; [exact Hev|].
  apply list_elem_of_lookup in Hg as [i Hi].
  destruct (groups_grow_change _ _ Hch i g Hi)
    as (g' & Hi' & Hid' & _ & _ & [k Hk]).
  exists g'. split; [eapply list_elem_of_lookup_2; exact Hi'|].
  split; [congruence|]. rewrite Hk. apply elem_of_app. left. exact Hdata.
Qed.

Lemma emitted_stored_change a b :
  Forall (emit_stored a) (emitted a) -> Change a b ->
  Forall (emit_stored b) (emitted b).
Proof.
  intros Ha Hch.
  assert (Hold : Forall (emit_stored b) (emitted a)).
  { eapply Forall_impl; [|exact Ha].
    intros e He. eapply emit_stored_change; eassumption. }
  destruct Hch as [| | | |group m Hfind]; simpl in *; try exact Hold.
  apply Forall_app. split; [exact Hold|]. apply Forall_singleton.
  split; [reflexivity|]. simpl.
  exists (append_message group m). split; [|split; [reflexivity|]].
  - apply list_elem_of_In.
    eapply List.find_some, find_append_message. exact Hfind.
  - simpl. apply elem_of_app. right. apply list_elem_of_singleton. reflexivity.
Qed.

(** No request changes or removes a stored user: after any requests each
    user record is where it was, field for field. *)
Theorem stored_users_are_kept env calls w i u :
  users w !! i = Some u -> users (run env calls w) !! i = Some u.
Proof.
  intros Hu. eapply prefix_lookup_Some; [exact Hu|apply run_users_prefix].
Qed.

(** User records stay well formed and emails stay unique: if every stored
    email is lowercase, the required fields are present and no two users
    share an email, the same holds after any requests. *)
Theorem users_stay_valid_and_unique env calls w :
  users_ok w -> users_ok (run env calls w).
Proof. apply run_preserves. apply users_ok_change. Qed.

(** Groups and their messages are append-only: after any requests each
    stored group is where it was, with the same id, name and members, and
    its earlier messages are the first messages of its list, in the same
    order. *)
Theorem group_history_is_append_only env calls w i g :
  groups w !! i = Some g ->
  exists g',
    groups (run env calls w) !! i = Some g' /\
    Group._id g' = Group._id g /\ Group.name g' = Group.name g /\
    Group.members g' = Group.members g /\
    Group.messages g `prefix_of` Group.messages g'.
Proof. apply run_groups_grow. Qed.

(** Every emission is a stored message: if each emitted event so far is a
    [newMessage] whose message is in the group that names its room, so is
    each event emitted after any requests; and earlier emissions stay the
    first ones of the list. *)
Theorem emissions_are_stored_messages env calls w :
  Forall (emit_stored w) (emitted w) ->
  Forall (emit_stored (run env calls w)) (emitted (run env calls w)) /\
  emitted w `prefix_of` emitted (run env calls w).
Proof.
  intros Hw. split; [|apply run_emitted_prefix].
  apply (run_preserves (fun a => Forall (emit_stored a) (emitted a)));
    [apply emitted_stored_change|exact Hw].
Qed.

(** Register, log in, fetch: with fresh ObjectIds, a user who registered
    and then logs in (same email up to letter case, same password) gets a
    token with which [GET /api/auth/user], within the hour and whatever
    requests came in between, answers 200 with a body whose [_id] is the
    user's id, whose [name] is the registered name, whose [email] is the
    lowercased email, and which has no [password]. *)
Theorem register_login_get_user env key salt req0 w0 w1 E P
    calls1 now req E' calls2 now' req' :
  JWT_SECRET env = Some key -> key <> "" ->
  ids_fresh w0 ->
  Body.email (Req.body req0) = Some E ->
  Body.password (Req.body req0) = Some P ->
  post_auth_register salt req0 w0 = (inr registered_201, w1) ->
  Body.email (Req.body req) = Some E' -> toLowerCase E' = toLowerCase E ->
  Body.password (Req.body req) = Some P ->
  numeric_date now' < numeric_date now + expiresIn_1h ->
  exists tok,
    post_auth_login env now req (run env calls1 w1)
      = (inr (login_200 tok), run env calls1 w1) /\
    (Req.authorization req' = Some ("Bearer " +:+ tok) ->
     exists r,
       get_auth_user env now' req' (run env calls2 (run env calls1 w1))
         = (inr r, run env calls2 (run env calls1 w1)) /\
       status r = 200%nat /\
       json_get "_id" (body r) = Some (JOid (next_oid w0)) /\
       json_get "name" (body r) = JStr <$> Body.name (Req.body req0) /\
       json_get "email" (body r) = Some (JStr (toLowerCase E)) /\
       json_get "password" (body r) = None).
Proof.
  intros Henv Hk Hfresh HE HP Hreg HE' Hlow HP' Hnow.
  destruct (post_auth_register_201_inv _ _ _ _ _ Hreg eq_refl)
    as (E0 & P0 & HE0 & HP0 & Hfree & _ & Hw1).
  rewrite HE in HE0. injection HE0 as <-.
  rewrite HP in HP0. injection HP0 as <-.
  set (u := new_user w0 (Body.name (Req.body req0)) E P salt) in *.
  assert (Hch : Change w0 w1).
  { pose proof (serve_change env {| route := PostAuthRegister salt;
                                    now_ms := 0; request := req0 |} w0) as Hc.
    unfold serve in Hc. simpl in Hc. rewrite Hreg in Hc. exact Hc. }
  set (w2 := run env calls1 w1). set (w3 := run env calls2 w2).
  assert (Hfresh3 : ids_fresh w3).
  { apply run_preserves; [apply ids_fresh_change|].
    apply run_preserves; [apply ids_fresh_change|].
    eapply ids_fresh_change; eassumption. }
  assert (Hu1 : users w1 = users w0 ++ [u]) by (rewrite Hw1; reflexivity).
  destruct (run_users_prefix env calls1 w1) as [k1 Hk1]. fold w2 in Hk1.
  destruct (run_users_prefix env calls2 w2) as [k2 Hk2]. fold w3 in Hk2.
  assert (Hfound : List.find (by_email (toLowerCase E')) (users w2) = Some u).
  { rewrite Hk1, Hu1, Hlow. apply find_some_app.
    rewrite (find_none_app _ _ _ Hfree). simpl. unfold by_email. simpl.
    rewrite String.eqb_refl. reflexivity. }
  assert (Hpw : User.password u = bcrypt_hash P 10 salt) by reflexivity.
  assert (Hid : User._id u = next_oid w0) by reflexivity.
  assert (Hnm : User.name u = Body.name (Req.body req0)) by reflexivity.
  assert (Hmail : User.email u = toLowerCase E) by reflexivity.
  clearbody u.
  exists (login_token key u now). split.
  - rewrite (post_auth_login_found _ _ _ _ _ _ _ HE' HP' Hfound).
    rewrite Hpw, bcrypt_compare_hash.
    rewrite Henv, (jwt_sign_login _ _ _ Hk). reflexivity.
  - intros Hauth.
    assert (Hnext : authenticateUser env now' (Req.authorization req')
                    = Next (login_claims u now)).
    { rewrite Hauth, (authenticateUser_login_token _ _ _ _ _ Henv Hk).
      destruct (Z.leb_spec (numeric_date now + expiresIn_1h)
                  (numeric_date now')); [lia|reflexivity]. }
    assert (Hin : u ∈ users w3).
    { rewrite Hk2, Hk1, Hu1. apply elem_of_app. left. apply elem_of_app. left.
      apply elem_of_app. right. apply list_elem_of_singleton. reflexivity. }
    destruct Hfresh3 as (_ & Hnd & _).
    exists (user_200 u).
    split; [apply (get_auth_user_found _ _ _ _ _ u Hnext
                     (find_by_user_id_NoDup _ _ _ Hnd Hin eq_refl))|].
    split; [reflexivity|].
    rewrite <- Hid, <- Hnm, <- Hmail.
    destruct u as [i [nm|] e p]; repeat split.
Qed.

(** Create, then list: a group created by an authenticated caller is, after
    any further requests, listed by [GET /api/groups] for a caller with the
    creator's email, under the id it was given, with its name and the
    creator as only member; with fresh ObjectIds, no group of that id is
    listed for a caller with another email. *)
Theorem created_group_is_listed env now req w user calls now' req' user' :
  authenticateUser env now (Req.authorization req) = Next user ->
  authenticateUser env now' (Req.authorization req') = Next user' ->
  exists found,
    get_groups env now' req'
      (run env calls (snd (post_groups env now req w)))
    = (inr {| status := 200; body := JArr (map group_json found) |},
       run env calls (snd (post_groups env now req w))) /\
    (Jwt.email user' = Jwt.email user ->
     exists g, g ∈ found /\ Group._id g = next_oid w /\
               Group.name g = Body.name (Req.body req) /\
               Group.members g = [Jwt.email user]) /\
    (ids_fresh w -> Jwt.email user' <> Jwt.email user ->
     forall g, g ∈ found -> Group._id g <> next_oid w).
Proof.
  intros Hauth Hauth'. rewrite (post_groups_run _ _ _ _ _ Hauth). simpl.
  set (new := {| Group._id := next_oid w; Group.name := Body.name (Req.body req);
                 Group.members := [Jwt.email user]; Group.messages := [] |}).
  set (w1 := {| users := users w; groups := groups w ++ [new];
                emitted := emitted w; next_oid := N.succ (next_oid w) |}).
  set (w2 := run env calls w1).
  assert (Hnew : groups w1 !! length (groups w) = Some new).
  { simpl. rewrite lookup_app_r by lia. rewrite Nat.sub_diag. reflexivity. }
  destruct (run_groups_grow env calls w1 _ _ Hnew)
    as (g & Hg & Hid & Hname & Hmem & _). fold w2 in Hg.
  assert (Hin : g ∈ groups w2) by (eapply list_elem_of_lookup_2; exact Hg).
  eexists. split; [apply (get_groups_run _ _ _ _ _ Hauth')|]. split.
  - intros Hmail. exists g. split; [|auto].
    apply list_elem_of_filter. split; [|exact Hin].
    rewrite Hmem, Hmail. simpl. apply list_elem_of_singleton. reflexivity.
  - intros Hfresh Hne g' Hg' Hid'.
    apply list_elem_of_filter in Hg' as [Hmem' Hin'].
    assert (Hfresh2 : ids_fresh w2).
    { apply run_preserves; [apply ids_fresh_change|].
      eapply ids_fresh_change; [exact Hfresh|]. apply change_group. }
    destruct Hfresh2 as (_ & _ & _ & Hnd).
    assert (g' = g) as ->.
    { eapply NoDup_fmap_eq; [exact Hnd|exact Hin'|exact Hin|].
      rewrite Hid', Hid. reflexivity. }
    rewrite Hmem in Hmem'. simpl in Hmem'.
    apply list_elem_of_singleton in Hmem'. contradiction.
Qed.

(** Send, then list: a message sent to a stored group is, after any
    further requests, in that group as [GET /api/groups] lists it for any
    caller whose email is among the group's members; the group's messages
    up to and including the sent one are the first of the listed group. *)
Theorem sent_message_is_listed env now req w user id group
    calls now' req' user' :
  authenticateUser env now (Req.authorization req) = Next user ->
  castObjectId (Req.id req) = Some id ->
  List.find (by_group_id id) (groups w) = Some group ->
  authenticateUser env now' (Req.authorization req') = Next user' ->
  Jwt.email user' ∈ Group.members group ->
  exists found g,
    get_groups env now' req'
      (run env calls (snd (post_groups_message env now req w)))
    = (inr {| status := 200; body := JArr (map group_json found) |},
       run env calls (snd (post_groups_message env now req w))) /\
    g ∈ found /\ Group._id g = id /\
    (Group.messages group ++ [new_message user req now])
      `prefix_of` Group.messages g.
Proof.
  intros Hauth Hcast Hfind Hauth' Hmem.
  rewrite (post_groups_message_found _ _ _ _ _ _ _ Hauth Hcast Hfind). simpl.
  set (m := new_message user req now).
  set (w1 := {| users := users w;
                groups := replace_by_id (append_message group m) (groups w);
                emitted := emitted w ++ [{| room := id;
                                            event := "newMessage"; data := m |}];
                next_oid := next_oid w |}).
  set (w2 := run env calls w1).
  destruct (find_some_lookup _ _ _ (find_append_message _ _ _ m Hfind))
    as [i Hi].
  destruct (run_groups_grow env calls w1 i _ Hi)
    as (g & Hg & Hid & _ & Hmem' & Hpre). fold w2 in Hg.
  eexists _, g. split; [apply (get_groups_run _ _ _ _ _ Hauth')|].
  split; [|split].
  - apply list_elem_of_filter. split.
    + rewrite Hmem'. exact Hmem.
    + eapply list_elem_of_lookup_2. exact Hg.
  - rewrite Hid. simpl. eapply find_by_group_id_eq. exact Hfind.
  - exact Hpre.
Qed.
End RunFacts.

(** ** Delivery to sockets *)

Lemma room_sockets_deliver r s e : room_sockets r (deliver s e) = room_sockets r s.
Proof. reflexivity. Qed.

Lemma fold_deliver_joined es s : joined (fold_left deliver es s) = joined s.
Proof.
  revert s. induction es as [|e es IH]; intros s; simpl; [reflexivity|].
  rewrite IH. reflexivity.
Qed.

Lemma elem_of_room_sockets sid r s :
  sid ∈ room_sockets r s <-> (sid, r) ∈ joined s.
Proof.
  unfold room_sockets. rewrite list_elem_of_fmap. split.
  - intros ([sid' r'] & -> & Hin). apply list_elem_of_In in Hin.
    apply List.filter_In in Hin as [Hin Hr]. unfold is_room in Hr.
    simpl in *. apply N.eqb_eq in Hr. subst r'.
    apply list_elem_of_In. exact Hin.
  - intros Hin. exists (sid, r). split; [reflexivity|].
    apply list_elem_of_In, List.filter_In. split.
    + apply list_elem_of_In. exact Hin.
    + unfold is_room. simpl. apply N.eqb_refl.
Qed.

Lemma fold_deliver_delivered es s p :
  p ∈ delivered (fold_left deliver es s) ->
  p ∈ delivered s \/ (snd p ∈ es /\ (fst p, room (snd p)) ∈ joined s).
Proof.
  revert s. induction es as [|e es IH]; intros s; simpl; [auto|].
  intros Hp. destruct (IH _ Hp) as [Hd|[He Hj]].
  - simpl in Hd. apply elem_of_app in Hd as [Hd|Hd]; [auto|].
    apply list_elem_of_fmap in Hd as (sid & -> & Hsid). right. simpl.
    split; [left|apply elem_of_room_sockets; exact Hsid].
  - right. split; [right; exact He|exact Hj].
Qed.

Lemma NoDup_room_sockets r s :
  NoDup (joined s) -> NoDup (room_sockets r s).
Proof.
  unfold room_sockets. induction (joined s) as [|[sid r'] l IH]; simpl;
    intros Hnd; [constructor|].
  apply list.NoDup_cons in Hnd as [Hp Hnd]. unfold is_room at 1. simpl.
  destruct (N.eqb_spec r' r) as [->|Hr]; [|auto].
  simpl. apply list.NoDup_cons. split; [|auto].
  intros Hin. apply Hp.
  apply (elem_of_room_sockets sid r {| joined := l; delivered := [] |}).
  exact Hin.
Qed.

Lemma NoDup_List_filter {A} (f : A -> bool) l :
  NoDup l -> NoDup (List.filter f l).
Proof.
  induction 1 as [|x l Hx Hl IH]; simpl; [constructor|].
  destruct (f x); [|exact IH]. constructor; [|exact IH].
  intros Hin. apply Hx. apply list_elem_of_In in Hin.
  apply List.filter_In in Hin as [Hin _]. apply list_elem_of_In. exact Hin.
Qed.

Lemma joined_NoDup_event e s :
  NoDup (joined s) -> NoDup (joined (on_socket_event e s)).
Proof.
  intros Hnd. destruct e as [sid|sid r|sid]; simpl; [exact Hnd| |].
  - unfold socket_join.
    destruct (existsb _ (joined s)) eqn:Hex; [exact Hnd|]. simpl.
    apply list.NoDup_app. split; [exact Hnd|].
    split; [|apply NoDup_singleton].
    intros p Hp Hin. apply list_elem_of_singleton in Hin. subst p.
    apply Bool.not_true_iff_false in Hex. apply Hex.
    apply List.existsb_exists. exists (sid, r).
    split; [apply list_elem_of_In; exact Hp|].
    unfold is_socket, is_room. simpl.
    rewrite String.eqb_refl, N.eqb_refl. reflexivity.
  - apply NoDup_List_filter. exact Hnd.
Qed.

Lemma joined_event_in e s p :
  p ∈ joined (on_socket_event e s) ->
  p ∈ joined s \/ e = JoinGroup (fst p) (snd p).
Proof.
  destruct e as [sid|sid r|sid]; simpl; [auto| |].
  - unfold socket_join. destruct (existsb _ (joined s)); [auto|]. simpl.
    intros Hp. apply elem_of_app in Hp as [Hp|Hp]; [auto|].
    apply list_elem_of_singleton in Hp. subst p. auto.
  - intros Hp. left. apply list_elem_of_In in Hp.
    apply List.filter_In in Hp as [Hp _]. apply list_elem_of_In. exact Hp.
Qed.

Section RealtimeFacts.
Context `{JsStringLaws} `{BcryptLaws} `{JwtCodecLaws} `{ObjectIdCast}.

Lemma step_joined_NoDup env ev st :
  NoDup (joined (snd st)) -> NoDup (joined (snd (step env ev st))).
Proof.
  destruct ev as [c|e]; simpl.
  - rewrite fold_deliver_joined. auto.
  - apply joined_NoDup_event.
Qed.

Lemma steps_joined_NoDup env evs st :
  NoDup (joined (snd st)) -> NoDup (joined (snd (steps env evs st))).
Proof.
  revert st. induction evs as [|ev evs IH]; intros st Hnd; simpl; [exact Hnd|].
  apply IH, step_joined_NoDup, Hnd.
Qed.

Lemma step_delivered_in env ev st p :
  p ∈ delivered (snd (step env ev st)) ->
  p ∈ delivered (snd st) \/ (fst p, room (snd p)) ∈ joined (snd st).
Proof.
  destruct ev as [c|e]; simpl.
  - intros Hp. apply fold_deliver_delivered in Hp. tauto.
  - destruct e as [sid|sid r|sid]; simpl; auto.
    unfold socket_join. destruct (existsb _ _); auto.
Qed.

Lemma step_joined_in env ev st p :
  p ∈ joined (snd (step env ev st)) ->
  p ∈ joined (snd st) \/ ev = Socket (JoinGroup (fst p) (snd p)).
Proof.
  destruct ev as [c|e]; simpl.
  - rewrite fold_deliver_joined. auto.
  - intros Hp. apply joined_event_in in Hp as [Hp| ->]; auto.
Qed.

(** Whatever a socket has been sent, it had been sent before, or it was in
    the room before, or it joined the room on the way. *)
Lemma delivered_needs_join env evs st sid e :
  (sid, e) ∈ delivered (snd (steps env evs st)) ->
  (sid, e) ∈ delivered (snd st) \/ (sid, room e) ∈ joined (snd st) \/
  Socket (JoinGroup sid (room e)) ∈ evs.
Proof.
  revert st. induction evs as [|ev evs IH]; intros st; simpl; [auto|].
  intros Hp. destruct (IH _ Hp) as [Hd|[Hj|Hev]].
  - apply step_delivered_in in Hd. simpl in Hd. tauto.
  - apply step_joined_in in Hj as [Hj| ->]; [auto|].
    right. right. left.
  - right. right. right. exact Hev.
Qed.

(** A successful send reaches the room once: after any events from a
    server with no sockets, a message sent to a stored group is delivered
    exactly once to each socket then in the group's room, as the
    [newMessage] event carrying that message, and to no other socket. *)
Theorem sent_message_reaches_room env evs w0 c user id group :
  route c = PostGroupsMessage ->
  authenticateUser env (now_ms c) (Req.authorization (request c)) = Next user ->
  castObjectId (Req.id (request c)) = Some id ->
  List.find (by_group_id id)
            (groups (fst (steps env evs (w0, no_sockets)))) = Some group ->
  exists new,
    delivered (snd (step env (Http c) (steps env evs (w0, no_sockets))))
      = delivered (snd (steps env evs (w0, no_sockets))) ++ new /\
    NoDup new /\
    forall sid e,
      (sid, e) ∈ new <->
      (sid, id) ∈ joined (snd (steps env evs (w0, no_sockets))) /\
      e = {| room := id; event := "newMessage";
             data := new_message user (request c) (now_ms c) |}.
Proof.
  intros Hroute Hauth Hcast Hfind.
  pose proof (steps_joined_NoDup env evs (w0, no_sockets)
                ltac:(constructor)) as Hnd.
  destruct (steps env evs (w0, no_sockets)) as [w s]. simpl in *.
  unfold serve. rewrite Hroute.
  rewrite (post_groups_message_found _ _ _ _ _ _ _ Hauth Hcast Hfind). simpl.
  rewrite drop_app_length. simpl.
  set (e := {| room := id; event := "newMessage";
               data := new_message user (request c) (now_ms c) |}).
  eexists. split; [reflexivity|]. split.
  - apply NoDup_fmap_2; [|apply NoDup_room_sockets; exact Hnd].
    intros a b [= ->]. reflexivity.
  - intros sid e'. rewrite list_elem_of_fmap. split.
    + intros (sid' & [= -> ->] & Hin).
      split; [|reflexivity]. apply elem_of_room_sockets in Hin. exact Hin.
    + intros [Hin ->]. exists sid. split; [reflexivity|].
      apply elem_of_room_sockets. exact Hin.
Qed.

(** A socket that never joined a room receives nothing sent to it: over
    any events from any state, a socket that was not in an event's room at
    the start and did not join that room along the way has not been sent
    the event, unless it had been sent it before. *)
Theorem never_joined_never_receives env evs st sid e :
  (sid, e) ∉ delivered (snd st) ->
  (sid, room e) ∉ joined (snd st) ->
  Socket (JoinGroup sid (room e)) ∉ evs ->
  (sid, e) ∉ delivered (snd (steps env evs st)).
Proof.
  intros Hd Hj Hev Hin.
  destruct (delivered_needs_join _ _ _ _ _ Hin) as [?|[?|?]]; contradiction.
Qed.

(** After it disconnects a socket is in no room: whatever follows, it is
    sent nothing more unless it joins a room again. *)
Theorem disconnected_socket_receives_nothing env evs st sid e :
  (sid, e) ∉ delivered (snd st) ->
  Socket (JoinGroup sid (room e)) ∉ evs ->
  (sid, e) ∉ delivered
               (snd (steps env (Socket (Disconnect sid) :: evs) st)).
Proof.
  intros Hd Hev Hin. simpl in Hin.
  destruct (delivered_needs_join _ _ _ _ _ Hin) as [Hin'|[Hin'|Hin']];
    [contradiction| |contradiction].
  simpl in Hin'. apply list_elem_of_In in Hin'.
  apply List.filter_In in Hin' as [_ Hin']. unfold is_socket in Hin'.
  simpl in Hin'. rewrite String.eqb_refl in Hin'. discriminate.
Qed.

(** Only a successful send delivers: if an event changes what the sockets
    have been sent, it is a [POST /api/groups/:id/message] answered 200.
    Joining a room replays nothing. *)
Theorem only_a_sent_message_is_delivered env ev st :
  delivered (snd (step env ev st)) <> delivered (snd st) ->
  exists c r,
    ev = Http c /\ route c = PostGroupsMessage /\
    fst (serve env c (fst st)) = inr r /\ status r = 200%nat.
Proof.
  destruct ev as [c|e].
  2:{ intros Hne. exfalso. apply Hne.
      destruct e as [sid|sid r|sid]; simpl; try reflexivity.
      unfold socket_join. destruct (existsb _ _); reflexivity. }
  simpl. intros Hne.
  assert (Hsame : emitted (snd (serve env c (fst st))) = emitted (fst st) ->
                  False).
  { intros E. apply Hne. rewrite E, drop_all. reflexivity. }
  clear Hne. exists c. unfold serve in *.
  destruct (route c) as [salt| | | | |].
  - exfalso. apply Hsame.
    destruct (post_auth_register_total salt (request c) (fst st))
      as (r & w' & Hrun & _ & He & _). rewrite Hrun. exact He.
  - exfalso. apply Hsame. revert Hsame. run_handler. intros _.
    destruct (Body.email (Req.body (request c))); simpl; [|reflexivity].
    destruct (List.find _ (users (fst st))); simpl; [|reflexivity].
    destruct (Body.password (Req.body (request c))); simpl; [|reflexivity].
    destruct (bcrypt_compare _ _); simpl; [|reflexivity].
    destruct (jwt_sign _ _ _ _ _); reflexivity.
  - exfalso. apply Hsame. run_handler.
    destruct (authenticateUser _ _ _); [reflexivity|].
    destruct (List.find _ (users (fst st))); reflexivity.
  - exfalso. apply Hsame. run_handler.
    destruct (authenticateUser _ _ _); reflexivity.
  - exfalso. apply Hsame. run_handler.
    destruct (authenticateUser _ _ _); reflexivity.
  - destruct (authenticateUser env (now_ms c) (Req.authorization (request c)))
      as [rej|user] eqn:Hauth.
    { exfalso. apply Hsame. run_handler. rewrite Hauth. reflexivity. }
    destruct (castObjectId (Req.id (request c))) as [id|] eqn:Hcast.
    2:{ exfalso. apply Hsame.
        rewrite (post_groups_message_cast_error _ _ _ _ _ Hauth Hcast).
        reflexivity. }
    destruct (List.find (by_group_id id) (groups (fst st)))
      as [group|] eqn:Hfind.
    + rewrite (post_groups_message_found _ _ _ _ _ _ _ Hauth Hcast Hfind).
      eexists. repeat split.
    + exfalso. apply Hsame.
      rewrite (post_groups_message_not_found _ _ _ _ _ _ Hauth Hcast Hfind).
      reflexivity.
Qed.
End RealtimeFacts.

(** ** Lookups that miss *)

Section Misses.
Context `{JsStringLaws} `{BcryptLaws} `{JwtCodecLaws} `{ObjectIdCast}.

(** A login for an email that no stored user has after lowercasing is
    answered 400 "User not found" whatever the password, given or not, and
    the store is as before. *)
Theorem login_unknown_email env now req w E :
  Body.email (Req.body req) = Some E ->
  List.find (by_email (toLowerCase E)) (users w) = None ->
  post_auth_login env now req w = (inr (json_error 400 "User not found"), w).
Proof.
  intros HE Hnone. run_handler. rewrite HE. simpl. rewrite Hnone. reflexivity.
Qed.

(** A token that verifies but names no stored user: [GET /api/auth/user]
    answers 404 "User not found" and the store is as before. *)
Theorem get_auth_user_unknown_id env now req w user :
  authenticateUser env now (Req.authorization req) = Next user ->
  List.find (by_user_id (Jwt.userId user)) (users w) = None ->
  get_auth_user env now req w = (inr (json_error 404 "User not found"), w).
Proof.
  intros Hauth Hnone. run_handler. rewrite Hauth, Hnone. reflexivity.
Qed.
End Misses.

(** ** The properties on the reference instance *)

#[local] Existing Instance Reference.js.
#[local] Existing Instance Reference.bcrypt.
#[local] Existing Instance Reference.codec.
#[local] Existing Instance Reference.cast.
#[local] Existing Instance reference_js_laws.
#[local] Existing Instance reference_bcrypt_laws.
#[local] Existing Instance reference_codec_laws.

(** C1 (as stated) fails: a header of another scheme is not treated as
    "no token".  [Basic <token>] with a token issued at login is accepted and
    the handler runs; [Basic abc] is answered 403, not 401. *)
Lemma authenticateUser_scheme_not_checked :
  jwt_sign 1%N "a@x.com" (Some "s3cret") expiresIn_1h 0
    = inr Reference.alice_token /\
  spec_no_token (Some ("Basic " +:+ Reference.alice_token)) = true /\
  authenticateUser Reference.env 1000
    (Some ("Basic " +:+ Reference.alice_token)) = Next Reference.alice_claims /\
  authenticateUser Reference.env 1000
    (Some ("Basic " +:+ Reference.alice_token)) <> reject_401 /\
  spec_no_token (Some "Basic abc") = true /\
  authenticateUser Reference.env 1000 (Some "Basic abc")
    = reject_403.
Proof.
  assert (E : authenticateUser Reference.env 1000
                (Some ("Basic " +:+ Reference.alice_token))
              = Next Reference.alice_claims) by (vm_compute; reflexivity).
  repeat split; try (vm_compute; reflexivity).
  rewrite E. discriminate.
Qed.

(** The middleware on five headers: none, one field, an empty second field,
    a second field that is no token, and a token issued at login. *)
Lemma authenticateUser_state_machine_witness :
  authenticateUser Reference.env 1000 None = reject_401 /\
  authenticateUser Reference.env 1000 (Some "Bearer")
    = reject_401 /\
  authenticateUser Reference.env 1000 (Some "Bearer ")
    = reject_401 /\
  authenticateUser Reference.env 1000 (Some "Bearer abc")
    = reject_403 /\
  authenticateUser Reference.env 1000
    (Some ("Bearer " +:+ Reference.alice_token)) = Next Reference.alice_claims.
Proof.
  pose proof (authenticateUser_state_machine Reference.env 1000)
    as M.
  split; [apply (M None); reflexivity|].
  split; [apply (M (Some "Bearer")) with (h := "Bearer"); reflexivity|].
  split; [apply (M (Some "Bearer ")) with (scheme := "Bearer") (tok := "")
                                          (rest := "");
          solve [reflexivity | left; reflexivity]|].
  split.
  - apply (M (Some "Bearer abc")) with (scheme := "Bearer") (tok := "abc")
                                       (rest := "") (err := Jwt.Malformed);
      solve [reflexivity | left; reflexivity | discriminate].
  - apply (M (Some ("Bearer " +:+ Reference.alice_token)))
      with (scheme := "Bearer") (tok := Reference.alice_token) (rest := "");
      solve [vm_compute; reflexivity | left; reflexivity | discriminate].
Defined.

(** C9 (as stated) fails: registrations without [email], without [name] and
    without [password] are each answered 500, not 400. *)
Lemma register_missing_field_is_500 :
  post_auth_register "salt"
    (Reference.request None (Some "A") None (Some "p") None 0%N) Reference.empty
  = (inr (json_error 500 "Error registering user"), Reference.empty) /\
  status (json_error 500 "Error registering user") <> 400%nat /\
  (exists w, post_auth_register "salt"
     (Reference.request None None (Some "a@x.com") (Some "p") None 0%N)
     Reference.empty
   = (inr (json_error 500 "Error registering user"), w)) /\
  post_auth_register "salt"
    (Reference.request None (Some "A") (Some "a@x.com") None None 0%N)
    Reference.empty
  = (inr (json_error 500 "Error registering user"), Reference.empty).
Proof.
  split; [vm_compute; reflexivity|]. split; [discriminate|].
  split; [eexists; vm_compute; reflexivity|vm_compute; reflexivity].
Qed.

(** Runs of the handlers used below. *)
Lemma reference_alice_authenticated gid :
  authenticateUser Reference.env 1000
    (Req.authorization (Reference.as_alice gid)) = Next Reference.alice_claims.
Proof. vm_compute. reflexivity. Qed.

Lemma reference_cast_2 :
  castObjectId (Req.id (Reference.as_alice 2%N)) = Some 2%N.
Proof. vm_compute. reflexivity. Qed.

Lemma reference_register_A :
  post_auth_register "salt" Reference.register_A
    Reference.empty = (inr registered_201, Reference.after_alice).
Proof. vm_compute. reflexivity. Qed.

(** The example of the specification: A@x.com is registered, then a@x.com
    is refused; and likewise É@X.com, then é@x.com. *)
Lemma register_same_email_twice_witness :
  (post_auth_register "salt" Reference.register_A
     Reference.empty = (inr registered_201, Reference.after_alice) /\
   post_auth_register "pepper" Reference.register_a
     Reference.after_alice
   = (inr (json_error 400 "Email already in use"), Reference.after_alice)) /\
  (exists w1,
     post_auth_register "salt" Scenario.register_E Reference.empty
       = (inr registered_201, w1) /\
     post_auth_register "pepper" Scenario.register_e w1
       = (inr (json_error 400 "Email already in use"), w1) /\
     length (users w1) = 1%nat).
Proof.
  split.
  - destruct (register_same_email_twice
                Reference.env "salt" "pepper" Reference.register_A
                Reference.register_a Reference.empty "A@x.com" "a@x.com" "p")
      as (w1 & u & H1 & _ & _ & H2 & _);
      try reflexivity; try discriminate.
    rewrite reference_register_A in H1. injection H1 as <-.
    split; [exact reference_register_A|exact H2].
  - destruct (register_same_email_twice
                Reference.env "salt" "pepper" Scenario.register_E
                Scenario.register_e Reference.empty "É@X.com" "é@x.com" "p")
      as (w1 & u & H1 & Hu & _ & H2 & _);
      try reflexivity; try discriminate.
    exists w1. split; [exact H1|]. split; [exact H2|].
    rewrite Hu. reflexivity.
Defined.

(** C2 (as stated) fails: a wrong password is not always answered 400.
    Registered with a password of 73 bytes, a login with another password
    that has the same first 72 bytes is answered 200 with a token. *)
Lemma login_wrong_password_accepted :
  Scenario.long_2 <> Scenario.long_1 /\
  String.length Scenario.seventy_two = 72%nat /\
  exists w1 tok,
    post_auth_register "salt" Scenario.register_long Reference.empty
      = (inr registered_201, w1) /\
    post_auth_login Reference.env 0 Scenario.login_long_wrong w1
      = (inr (login_200 tok), w1) /\
    status (login_200 tok) <> 400%nat.
Proof.
  split; [discriminate|]. split; [reflexivity|].
  eexists _, _. split; [vm_compute; reflexivity|].
  split; [vm_compute; reflexivity|discriminate].
Qed.

(** Registered as A@x.com, logging in as a@X.COM: the right password gives
    a token the middleware accepts, a password that [compare] rejects
    gives 400. *)
Lemma login_after_register_witness :
  post_auth_login Reference.env 0
    Reference.login_a Reference.after_alice
  = (inr (login_200 Reference.alice_token), Reference.after_alice) /\
  authenticateUser Reference.env 1000
    (Reference.bearer Reference.alice_token) = Next Reference.alice_claims /\
  post_auth_login Reference.env 0
    Reference.login_bad Reference.after_alice
  = (inr (json_error 400 "Invalid password"), Reference.after_alice).
Proof.
  assert (Hs : "s3cret" <> "") by discriminate.
  destruct (login_after_register
              Reference.env "s3cret" "salt" Reference.register_A
              Reference.empty Reference.after_alice "A@x.com" "p" 0
              Reference.login_a "a@X.COM" eq_refl Hs eq_refl eq_refl
              reference_register_A eq_refl eq_refl)
    as (u & Hin & _ & _ & Hall).
  apply list_elem_of_singleton in Hin. subst u.
  destruct (Hall [] _ eq_refl) as [Hok _].
  destruct (Hok eq_refl) as [Hlogin Hauth].
  destruct (login_after_register
              Reference.env "s3cret" "salt" Reference.register_A
              Reference.empty Reference.after_alice "A@x.com" "p" 0
              Reference.login_bad "A@x.com" eq_refl Hs eq_refl eq_refl
              reference_register_A eq_refl eq_refl)
    as (u & Hin & _ & _ & Hall').
  apply list_elem_of_singleton in Hin. subst u.
  destruct (Hall' [] _ eq_refl) as (_ & Hbad & _).
  split; [exact Hlogin|]. split.
  - apply (Hauth 1000). vm_compute. reflexivity.
  - apply (Hbad "q"); reflexivity.
Defined.

Lemma reference_login_a :
  post_auth_login Reference.env 0
    Reference.login_a Reference.after_alice
  = (inr (login_200 Reference.alice_token), Reference.after_alice).
Proof. vm_compute. reflexivity. Qed.

(** A token issued at 0 ms is accepted at 3599999 ms and expired at
    3600000 ms. *)
Lemma login_token_expires_after_1h_witness :
  authenticateUser Reference.env 3599999
    (Reference.bearer Reference.alice_token) = Next Reference.alice_claims /\
  jwt_verify Reference.alice_token (Some "s3cret") 3600000
    = inl Jwt.TokenExpired /\
  authenticateUser Reference.env 3600000
    (Reference.bearer Reference.alice_token) = reject_403.
Proof.
  destruct (login_token_expires_after_1h
              Reference.env 0 Reference.login_a Reference.after_alice
              (login_200 Reference.alice_token) Reference.after_alice
              Reference.alice_token reference_login_a eq_refl)
    as (claims & Hiat & Hexp & Hall).
  change (numeric_date 0) with 0 in Hiat. rewrite Hiat in Hexp, Hall.
  destruct (Hall 3599999) as [Hbefore _].
  destruct (Hall 3600000) as [_ Hafter].
  destruct Hbefore as [Hv Ha]; [reflexivity|].
  destruct Hafter as [Hv' Ha']; [discriminate|].
  assert (Hc : claims = Reference.alice_claims).
  { assert (Hr : jwt_verify Reference.alice_token
                   (JWT_SECRET Reference.env) 3599999
                 = inr Reference.alice_claims) by (vm_compute; reflexivity).
    rewrite Hr in Hv. injection Hv as <-. reflexivity. }
  subst claims. split; [exact Ha|]. split; [exact Hv'|exact Ha'].
Defined.

(** A group created with a token for a@x.com has that one member. *)
Lemma post_groups_sole_member_witness :
  exists group,
    post_groups Reference.env 1000 (Reference.as_alice 0%N)
      Reference.after_alice
    = (inr (group_created_201 group),
       {| users := [Reference.alice]; groups := [group]; emitted := [];
          next_oid := 3%N |}) /\
    Group.name group = Some "Goa" /\
    Group.members group = ["a@x.com"] /\
    Group.messages group = [].
Proof.
  apply (post_groups_sole_member Reference.env 1000
           (Reference.as_alice 0%N) Reference.after_alice
           Reference.alice_claims).
  vm_compute. reflexivity.
Defined.

(** Of two stored groups, the caller is sent the one it is a member of. *)
Lemma get_groups_exactly_member_groups_witness :
  exists found,
    get_groups Reference.env 1000 (Reference.as_alice 0%N)
      Reference.with_groups
    = (inr {| status := 200; body := JArr (map group_json found) |},
       Reference.with_groups) /\
    Reference.alices_group ∈ found /\
    Reference.bobs_group ∉ found.
Proof.
  destruct (get_groups_exactly_member_groups Reference.env
              1000 (Reference.as_alice 0%N) Reference.with_groups
              Reference.alice_claims)
    as (found & Hrun & Hiff & _); [vm_compute; reflexivity|].
  exists found. split; [exact Hrun|]. split.
  - apply Hiff. split.
    + right. left.
    + left.
  - intros Hin. apply Hiff in Hin as [_ Hin].
    apply list_elem_of_singleton in Hin. discriminate.
Defined.

(** A caller who is not a member of the group appends to it all the same. *)
Lemma post_groups_message_appends_witness :
  ("a@x.com" ∉ Group.members Reference.bobs_group) /\
  exists w',
    post_groups_message Reference.env 1000
      (Reference.as_alice 2%N) Reference.with_groups
    = (inr (message_sent_200 Reference.hi_from_alice), w') /\
    List.find (by_group_id 2%N) (groups w')
    = Some (append_message Reference.bobs_group Reference.hi_from_alice) /\
    emitted w' = [{| room := 2%N; event := "newMessage";
                     data := Reference.hi_from_alice |}].
Proof.
  split.
  { intros Hin. apply list_elem_of_singleton in Hin. discriminate. }
  destruct (post_groups_message_appends Reference.env 1000
              (Reference.as_alice 2%N) Reference.with_groups
              Reference.alice_claims 2%N Reference.bobs_group)
    as (m & w' & -> & Hrun & Hfind & _ & _ & _ & _ & Hemit);
    [vm_compute; reflexivity|exact reference_cast_2|reflexivity|].
  exists w'. split; [exact Hrun|]. split; [exact Hfind|exact Hemit].
Defined.

(** C7 (as stated) fails: for the id "9", which no stored group has, the
    answer is 500 "Error sending message", not 404. *)
Lemma post_groups_message_bad_id_is_500 :
  Forall (fun g => Reference.oid_string (Group._id g) <> "9")
         (groups Reference.with_groups) /\
  authenticateUser Reference.env 1000 (Req.authorization Scenario.alice_to_9)
    = Next Reference.alice_claims /\
  Req.id Scenario.alice_to_9 = "9" /\
  post_groups_message Reference.env 1000 Scenario.alice_to_9
    Reference.with_groups
  = (inr (json_error 500 "Error sending message"), Reference.with_groups) /\
  status (json_error 500 "Error sending message") <> 404%nat.
Proof.
  split; [repeat constructor; discriminate|].
  split; [vm_compute; reflexivity|]. split; [reflexivity|].
  split; [vm_compute; reflexivity|discriminate].
Qed.

(** No stored group has id 9: for its string form the answer is 404, for
    the path segment "9" it is 500; the store is as before both times. *)
Lemma post_groups_message_unknown_group_witness :
  post_groups_message Reference.env 1000
    (Reference.as_alice 9%N) Reference.with_groups
  = (inr (json_error 404 "Group not found"), Reference.with_groups) /\
  post_groups_message Reference.env 1000
    Scenario.alice_to_9 Reference.with_groups
  = (inr (json_error 500 "Error sending message"), Reference.with_groups).
Proof.
  split.
  - destruct (post_groups_message_unknown_group Reference.env
                1000 (Reference.as_alice 9%N) Reference.with_groups)
      as (r & w' & Hrun & Hnone & _).
    destruct (Hnone 9%N eq_refl eq_refl) as [-> Hr].
    rewrite (Hr Reference.alice_claims (reference_alice_authenticated 9%N))
      in Hrun.
    exact Hrun.
  - destruct (post_groups_message_unknown_group Reference.env
                1000 Scenario.alice_to_9 Reference.with_groups)
      as (r & w' & Hrun & _ & Hcast & _).
    destruct (Hcast eq_refl) as [-> Hr].
    rewrite (Hr Reference.alice_claims) in Hrun by (vm_compute; reflexivity).
    exact Hrun.
Defined.

(** C8 fails on the console: registering A / A@x.com / p in the empty
    store is answered 201 and stores the digest of "p" and not "p", but
    the first of the two lines the handler writes to the console is the
    request body with its [password] "p". *)
Theorem register_logs_plaintext_password :
  post_auth_register_logged "salt" Reference.register_A (Reference.empty, [])
  = (inr registered_201,
     ({| users := [{| User._id := 1%N; User.name := Some "A";
                      User.email := "a@x.com"; User.password := "$p" |}];
         groups := []; emitted := []; next_oid := 2%N |},
      [{| label := "📩 Registration Request Received:";
          printed := PJson (JObj [("name", JStr "A");
                                  ("email", JStr "A@x.com");
                                  ("password", JStr "p")]) |};
       {| label := "✅ User successfully saved to database:";
          printed := PJson (JObj [("_id", JOid 1%N); ("name", JStr "A");
                                  ("email", JStr "a@x.com");
                                  ("password", JStr "$p")]) |}])).
Proof. vm_compute. reflexivity. Qed.

(** A registration without [name], a login without [password], and what
    the 400 of a login with the password "q" means. *)
Lemma missing_field_answers_witness :
  (exists r w',
     post_auth_register "salt"
       (Reference.request None None (Some "b@x.com") (Some "p") None 0%N)
       Reference.after_alice = (inr r, w') /\
     users w' = [Reference.alice] /\ groups w' = [] /\
     r = json_error 500 "Error registering user") /\
  post_auth_login Reference.env 0
    (Reference.request None None (Some "A@x.com") None None 0%N)
    Reference.after_alice
  = (inr (json_error 500 "Server error during login"), Reference.after_alice) /\
  (exists u,
     List.find (by_email "a@x.com") (users Reference.after_alice) = Some u /\
     bcrypt_compare "q" (User.password u) = false).
Proof.
  destruct (missing_field_answers)
    as (Hreg & Hlogin & Honly).
  split; [|split].
  - apply (Hreg "salt"
             (Reference.request None None (Some "b@x.com") (Some "p") None 0%N)
             Reference.after_alice).
    left. reflexivity.
  - apply (Hlogin Reference.env 0
             (Reference.request None None (Some "A@x.com") None None 0%N)
             Reference.after_alice "A@x.com"); reflexivity.
  - destruct (Honly Reference.env
                {| route := PostAuthLogin; now_ms := 0;
                   request := Reference.login_bad |}
                Reference.after_alice
                (json_error 400 "Invalid password") Reference.after_alice
                eq_refl eq_refl)
      as (E & HE & [(salt & u & [=] & _)|[(_ & Hnone & _)|Hbad]]).
    + injection HE as <-. discriminate Hnone.
    + destruct Hbad as (u & P & _ & Hu & HP & Hcmp & _).
      injection HE as <-. injection HP as <-.
      exists u. split; [exact Hu|exact Hcmp].
Defined.

(** ** The further properties on the reference instance *)

Lemma scenario_bob_authenticated :
  authenticateUser Reference.env 1000 (Req.authorization Scenario.as_bob)
  = Next Scenario.bob_claims.
Proof. vm_compute. reflexivity. Qed.

(** [GET /api/groups] without a header is refused and reads nothing. *)
Lemma protected_routes_need_token_witness :
  serve Reference.env
    (Scenario.call GetGroups
       (Reference.request None None None None None 0%N))
    Reference.with_groups
  = (inr (json_error 401 "Unauthorized. No token provided."),
     Reference.with_groups).
Proof.
  apply (protected_routes_need_token Reference.env
           (Scenario.call GetGroups
              (Reference.request None None None None None 0%N))
           Reference.with_groups).
  - right. right. left. reflexivity.
  - reflexivity.
Defined.

(** A login leaves the store as it is. *)
Lemma login_and_reads_change_nothing_witness :
  snd (serve Reference.env (Scenario.call PostAuthLogin Reference.login_a)
         Reference.after_alice) = Reference.after_alice.
Proof.
  apply (login_and_reads_change_nothing Reference.env
           (Scenario.call PostAuthLogin Reference.login_a)
           Reference.after_alice).
  left. reflexivity.
Defined.

(** The 200 of alice's login: her record was found and "p" compared. *)
Lemma login_requires_matching_password_witness :
  exists E P u key,
    Body.email (Req.body Reference.login_a) = Some E /\
    Body.password (Req.body Reference.login_a) = Some P /\
    List.find (by_email (toLowerCase E)) (users Reference.after_alice)
      = Some u /\
    bcrypt_compare P (User.password u) = true /\
    JWT_SECRET Reference.env = Some key /\ key <> "" /\
    login_200 Reference.alice_token = login_200 (login_token key u 0) /\
    jwt_verify (login_token key u 0) (Some key) 0
      = inr {| Jwt.userId := User._id u; Jwt.email := User.email u;
               Jwt.iat := numeric_date 0;
               Jwt.exp := numeric_date 0 + expiresIn_1h |}.
Proof.
  apply (login_requires_matching_password Reference.env 0 Reference.login_a
           Reference.after_alice (login_200 Reference.alice_token)
           Reference.after_alice).
  - exact reference_login_a.
  - reflexivity.
Defined.

(** A login without [email] in a store that has users. *)
Lemma post_auth_login_missing_email_witness :
  post_auth_login Reference.env 0
    (Reference.request None None None (Some "p") None 0%N)
    Reference.after_alice
  = (inl TypeError, Reference.after_alice).
Proof.
  apply (post_auth_login_missing_email Reference.env 0
           (Reference.request None None None (Some "p") None 0%N)
           Reference.after_alice).
  reflexivity.
Defined.

(** Alice's record is still first after the traffic. *)
Lemma stored_users_are_kept_witness :
  users (run Reference.env Scenario.traffic Reference.with_groups) !! 0%nat
  = Some Reference.alice.
Proof.
  apply (stored_users_are_kept Reference.env Scenario.traffic
           Reference.with_groups 0%nat Reference.alice).
  reflexivity.
Defined.

Lemma reference_users_ok : users_ok Reference.with_groups.
Proof.
  split; simpl.
  - apply Forall_singleton. split; reflexivity.
  - apply NoDup_singleton.
Qed.

(** The users after the traffic are well formed, with distinct emails. *)
Lemma users_stay_valid_and_unique_witness :
  users_ok (run Reference.env Scenario.traffic Reference.with_groups).
Proof.
  apply (users_stay_valid_and_unique Reference.env Scenario.traffic
           Reference.with_groups).
  exact reference_users_ok.
Defined.

(** Bob's group after the traffic: same place, id, name and members. *)
Lemma group_history_is_append_only_witness :
  exists g',
    groups (run Reference.env Scenario.traffic Reference.with_groups) !! 0%nat
      = Some g' /\
    Group._id g' = 2%N /\ Group.name g' = Some "Goa" /\
    Group.members g' = ["b@x.com"] /\
    [] `prefix_of` Group.messages g'.
Proof.
  apply (group_history_is_append_only Reference.env Scenario.traffic
           Reference.with_groups 0%nat Reference.bobs_group).
  reflexivity.
Defined.

(** What was emitted during the traffic is stored. *)
Lemma emissions_are_stored_messages_witness :
  Forall (emit_stored (run Reference.env Scenario.traffic Reference.with_groups))
         (emitted (run Reference.env Scenario.traffic Reference.with_groups)) /\
  [] `prefix_of`
    emitted (run Reference.env Scenario.traffic Reference.with_groups).
Proof.
  apply (emissions_are_stored_messages Reference.env Scenario.traffic
           Reference.with_groups).
  constructor.
Defined.

Lemma reference_ids_fresh_empty : ids_fresh Reference.empty.
Proof. repeat split; constructor. Qed.

(** Registered as A@x.com, logged in as a@X.COM, fetched after the traffic. *)
Lemma register_login_get_user_witness :
  exists tok,
    post_auth_login Reference.env 0 Reference.login_a Reference.after_alice
      = (inr (login_200 tok), Reference.after_alice) /\
    (Req.authorization (Reference.as_alice 0%N) = Some ("Bearer " +:+ tok) ->
     exists r,
       get_auth_user Reference.env 1000 (Reference.as_alice 0%N)
         (run Reference.env Scenario.traffic Reference.after_alice)
       = (inr r, run Reference.env Scenario.traffic Reference.after_alice) /\
       status r = 200%nat /\
       json_get "_id" (body r) = Some (JOid 1%N) /\
       json_get "name" (body r) = Some (JStr "A") /\
       json_get "email" (body r) = Some (JStr "a@x.com") /\
       json_get "password" (body r) = None).
Proof.
  assert (Hs : "s3cret" <> "") by discriminate.
  apply (register_login_get_user Reference.env "s3cret" "salt"
           Reference.register_A Reference.empty Reference.after_alice
           "A@x.com" "p" [] 0 Reference.login_a "a@X.COM" Scenario.traffic
           1000 (Reference.as_alice 0%N)
           eq_refl Hs reference_ids_fresh_empty eq_refl eq_refl
           reference_register_A eq_refl eq_refl eq_refl).
  vm_compute. reflexivity.
Defined.

(** Alice creates "Goa": she is listed it after the traffic, bob is not. *)
Lemma created_group_is_listed_witness :
  (exists found,
     get_groups Reference.env 1000 (Reference.as_alice 0%N)
       (run Reference.env Scenario.traffic
          (snd (post_groups Reference.env 1000 (Reference.as_alice 0%N)
                  Reference.after_alice)))
     = (inr {| status := 200; body := JArr (map group_json found) |},
        run Reference.env Scenario.traffic
          (snd (post_groups Reference.env 1000 (Reference.as_alice 0%N)
                  Reference.after_alice))) /\
     exists g, g ∈ found /\ Group._id g = 2%N /\ Group.name g = Some "Goa" /\
               Group.members g = ["a@x.com"]) /\
  (exists found,
     get_groups Reference.env 1000 Scenario.as_bob
       (run Reference.env Scenario.traffic
          (snd (post_groups Reference.env 1000 (Reference.as_alice 0%N)
                  Reference.after_alice)))
     = (inr {| status := 200; body := JArr (map group_json found) |},
        run Reference.env Scenario.traffic
          (snd (post_groups Reference.env 1000 (Reference.as_alice 0%N)
                  Reference.after_alice))) /\
     forall g, g ∈ found -> Group._id g <> 2%N).
Proof.
  assert (Hfresh : ids_fresh Reference.after_alice).
  { split; [apply Forall_singleton; reflexivity|].
    split; [apply NoDup_singleton|]. split; constructor. }
  split.
  - destruct (created_group_is_listed Reference.env 1000
                (Reference.as_alice 0%N) Reference.after_alice
                Reference.alice_claims Scenario.traffic 1000
                (Reference.as_alice 0%N) Reference.alice_claims
                (reference_alice_authenticated 0%N)
                (reference_alice_authenticated 0%N))
      as (found & Hrun & Hsame & _).
    exists found. split; [exact Hrun|exact (Hsame eq_refl)].
  - destruct (created_group_is_listed Reference.env 1000
                (Reference.as_alice 0%N) Reference.after_alice
                Reference.alice_claims Scenario.traffic 1000
                Scenario.as_bob Scenario.bob_claims
                (reference_alice_authenticated 0%N)
                scenario_bob_authenticated)
      as (found & Hrun & _ & Hother).
    exists found. split; [exact Hrun|].
    apply (Hother Hfresh). discriminate.
Defined.

(** Alice's "hi" to bob's group is listed to bob after the traffic. *)
Lemma sent_message_is_listed_witness :
  exists found g,
    get_groups Reference.env 1000 Scenario.as_bob
      (run Reference.env Scenario.traffic
         (snd (post_groups_message Reference.env 1000 (Reference.as_alice 2%N)
                 Reference.with_groups)))
    = (inr {| status := 200; body := JArr (map group_json found) |},
       run Reference.env Scenario.traffic
         (snd (post_groups_message Reference.env 1000 (Reference.as_alice 2%N)
                 Reference.with_groups))) /\
    g ∈ found /\ Group._id g = 2%N /\
    [Reference.hi_from_alice] `prefix_of` Group.messages g.
Proof.
  apply (sent_message_is_listed Reference.env 1000 (Reference.as_alice 2%N)
           Reference.with_groups Reference.alice_claims 2%N
           Reference.bobs_group
           Scenario.traffic 1000 Scenario.as_bob Scenario.bob_claims
           (reference_alice_authenticated 2%N) reference_cast_2 eq_refl
           scenario_bob_authenticated).
  left.
Defined.

Lemma scenario_no_join (sid : SocketId) (r : ObjectId) evs :
  Forall (fun ev => ev <> Socket (JoinGroup sid r)) evs ->
  Socket (JoinGroup sid r) ∉ evs.
Proof.
  intros Hall Hin. rewrite list.Forall_forall in Hall.
  exact (Hall _ Hin eq_refl).
Qed.

(** s1 joined room 2 twice and s2 joined room 3: "hi" to group 2 goes to
    s1 once and not to s2. *)
Lemma sent_message_reaches_room_witness :
  exists new,
    delivered (snd (step Reference.env (Http Scenario.send_hi)
                      (steps Reference.env Scenario.joins
                         (Reference.with_groups, no_sockets))))
    = delivered (snd (steps Reference.env Scenario.joins
                        (Reference.with_groups, no_sockets))) ++ new /\
    NoDup new /\
    ("s1", Scenario.hi_emit) ∈ new /\ ("s2", Scenario.hi_emit) ∉ new.
Proof.
  destruct (sent_message_reaches_room Reference.env Scenario.joins
              Reference.with_groups Scenario.send_hi Reference.alice_claims
              2%N Reference.bobs_group eq_refl
              (reference_alice_authenticated 2%N) reference_cast_2 eq_refl)
    as (new & Hd & Hnd & Hiff).
  exists new. split; [exact Hd|]. split; [exact Hnd|]. split.
  - apply Hiff. split; [left|reflexivity].
  - intros Hin. apply Hiff in Hin as [Hin _].
    apply elem_of_cons in Hin as [Hin|Hin]; [discriminate|].
    apply list_elem_of_singleton in Hin. discriminate.
Defined.

(** s2 never joined room 2: after the joins and the send it has no "hi". *)
Lemma never_joined_never_receives_witness :
  ("s2", Scenario.hi_emit)
    ∉ delivered (snd (steps Reference.env
                        (Scenario.joins ++ [Http Scenario.send_hi])
                        (Reference.with_groups, no_sockets))).
Proof.
  apply (never_joined_never_receives Reference.env
           (Scenario.joins ++ [Http Scenario.send_hi])
           (Reference.with_groups, no_sockets) "s2" Scenario.hi_emit).
  - apply not_elem_of_nil.
  - apply not_elem_of_nil.
  - apply scenario_no_join. repeat constructor; discriminate.
Defined.

(** s1 was in room 2, disconnects, and gets no "hi" sent afterwards. *)
Lemma disconnected_socket_receives_nothing_witness :
  ("s1", Scenario.hi_emit)
    ∉ delivered (snd (steps Reference.env
                        [Socket (Disconnect "s1"); Http Scenario.send_hi]
                        (steps Reference.env Scenario.joins
                           (Reference.with_groups, no_sockets)))).
Proof.
  apply (disconnected_socket_receives_nothing Reference.env
           [Http Scenario.send_hi]
           (steps Reference.env Scenario.joins
              (Reference.with_groups, no_sockets))
           "s1" Scenario.hi_emit).
  - apply not_elem_of_nil.
  - apply scenario_no_join. repeat constructor; discriminate.
Defined.

(** The send that reached s1 was a [POST /api/groups/:id/message] answered
    200. *)
Lemma only_a_sent_message_is_delivered_witness :
  exists c r,
    Http Scenario.send_hi = Http c /\ route c = PostGroupsMessage /\
    fst (serve Reference.env c
           (fst (steps Reference.env Scenario.joins
                   (Reference.with_groups, no_sockets)))) = inr r /\
    status r = 200%nat.
Proof.
  apply (only_a_sent_message_is_delivered Reference.env
           (Http Scenario.send_hi)
           (steps Reference.env Scenario.joins
              (Reference.with_groups, no_sockets))).
  vm_compute. discriminate.
Defined.

(** A complete registration with a free email. *)
Lemma register_succeeds_exactly_when_witness :
  (exists r w',
     post_auth_register "salt" Reference.register_A Reference.empty
       = (inr r, w') /\
     (status r = 201%nat <->
      exists nm E P,
        Body.name (Req.body Reference.register_A) = Some nm /\ nm <> "" /\
        Body.email (Req.body Reference.register_A) = Some E /\ E <> "" /\
        Body.password (Req.body Reference.register_A) = Some P /\
        List.find (by_email (toLowerCase E)) (users Reference.empty) = None)).
Proof.
  apply (register_succeeds_exactly_when "salt" Reference.register_A
           Reference.empty).
Defined.

(** Nobody is registered as c@x.com: 400 also without a password. *)
Lemma login_unknown_email_witness :
  post_auth_login Reference.env 0
    (Reference.request None None (Some "C@x.com") None None 0%N)
    Reference.after_alice
  = (inr (json_error 400 "User not found"), Reference.after_alice).
Proof.
  apply (login_unknown_email Reference.env 0
           (Reference.request None None (Some "C@x.com") None None 0%N)
           Reference.after_alice "C@x.com"); reflexivity.
Defined.

(** Bob's token verifies, but no stored user has id 5. *)
Lemma get_auth_user_unknown_id_witness :
  get_auth_user Reference.env 1000 Scenario.as_bob Reference.after_alice
  = (inr (json_error 404 "User not found"), Reference.after_alice).
Proof.
  apply (get_auth_user_unknown_id Reference.env 1000 Scenario.as_bob
           Reference.after_alice Scenario.bob_claims
           scenario_bob_authenticated).
  reflexivity.
Defined.
